(** * League of Molts commentary engine: event detection, template
      rendering and spectator fan-out

    A shallow embedding of
    - [commentary-engine/src/event_detector.py]  (module [Detector]),
    - [commentary-engine/src/commentary_generator.py], fast path only
      (module [Commentary]),
    - [CommentaryEngine.broadcast_commentary] of
      [commentary-engine/src/main.py]  (module [Broadcaster]),
    followed by the properties of the specification that these functions
    decide.

    Conventions of the embedding.
    - JSON numbers that Python reads as [float] ([match_time], health,
      coordinates) are exact rationals [Q]; rounding is outside the model.
      Python [int]s are [Z], counters that only count up are [nat].
    - A JSON object read with [d.get(key, default)] is a record of
      [option] fields: [None] is an absent key.  Fields that are present
      have the type their annotation gives them.
    - A Python [dict] whose iteration order is observable is an
      association list in insertion order ([Py.dict_get], [Py.dict_set],
      [Py.dict_alter]).  Objects held in a dict are referred to by their
      key; mutating an attribute of such an object is [Py.dict_alter].
    - A Python exception is the [Raise] branch of [Py.result]; it leaves
      the call it was raised in, and what the detector holds after an
      exception is not modelled. *)

From Stdlib Require Import QArith Lqa ZArith Ascii String List Bool Lia DecimalString.
From stdpp Require Import base decidable option list gmap strings sets.
Import ListNotations.
Local Open Scope string_scope.
Local Open Scope list_scope.

(* ===================================================================== *)
(** ** Python values, exceptions and dictionaries                         *)
(* ===================================================================== *)

Module Py.

(** The exceptions the modelled code can raise. *)
Inductive exn : Type :=
| KeyError (key : string)
| ValueError
| IndexError
| TypeError.

Inductive result (A : Type) : Type :=
| Ok (a : A)
| Raise (e : exn).
Arguments Ok {A} a.
Arguments Raise {A} e.

Definition bind {A B} (r : result A) (k : A -> result B) : result B :=
  match r with
  | Ok a => k a
  | Raise e => Raise e
  end.

(** Strict and weak comparison of exact numbers, as booleans. *)
Definition Qleb (x y : Q) : bool := Qle_bool x y.
Definition Qltb (x y : Q) : bool := negb (Qle_bool y x).

Section Dict.
Context {V : Type}.

(** [d.get(k)] : the first (and, in a dict, only) binding of [k]. *)
Fixpoint dict_get (k : string) (d : list (string * V)) : option V :=
  match d with
  | [] => None
  | (k', v) :: rest => if String.eqb k' k then Some v else dict_get k rest
  end.

(** [d[k] = v] : overwrite in place, or append a new binding at the end
    (Python dicts iterate in insertion order). *)
Fixpoint dict_set (k : string) (v : V) (d : list (string * V))
  : list (string * V) :=
  match d with
  | [] => [(k, v)]
  | (k', v') :: rest =>
      if String.eqb k' k then (k', v) :: rest
      else (k', v') :: dict_set k v rest
  end.

(** Mutation of the object stored under [k]. *)
Fixpoint dict_alter (f : V -> V) (k : string) (d : list (string * V))
  : list (string * V) :=
  match d with
  | [] => []
  | (k', v') :: rest =>
      if String.eqb k' k then (k', f v') :: rest
      else (k', v') :: dict_alter f k rest
  end.

Definition dict_values (d : list (string * V)) : list V := map snd d.
Definition dict_keys (d : list (string * V)) : list string := map fst d.

(** [d[k]], which raises [KeyError] on an absent key. *)
Definition getitem (d : list (string * V)) (k : string) : result V :=
  match dict_get k d with
  | Some v => Ok v
  | None => Raise (KeyError k)
  end.
End Dict.

End Py.

Import Py.

Notation "x <- e1 ;;; e2" := (Py.bind e1 (fun x => e2))
  (at level 100, e1 at next level, right associativity).

(* ===================================================================== *)
(** ** event_detector.py                                                  *)
(* ===================================================================== *)

Module Detector.

Inductive EventType : Type :=
| CHAMPION_KILL | FIRST_BLOOD | DOUBLE_KILL | TRIPLE_KILL | MULTI_KILL
| SHUTDOWN | ACE
| TOWER_DESTROYED | NEXUS_LOW | NEXUS_DESTROYED
| CLOSE_FIGHT | TEAMFIGHT_START | TEAMFIGHT_END
| MINION_WAVE | PUSH_ADVANTAGE
| LEVEL_UP | ULTIMATE_READY | BIG_PLAY
| MATCH_START | MATCH_END.

#[global] Instance EventType_eq_dec : EqDecision EventType.
Proof. solve_decision. Defined.

(** Values found in an event payload ([Dict[str, Any]]). *)
Inductive value : Type :=
| VNone
| VStr (s : string)
| VInt (z : Z)
| VNum (q : Q).

Record GameEvent : Type := mkEvent {
  event_type : EventType;
  timestamp : Q;
  tick : Z;
  data : list (string * value)
}.

Definition is_major (e : GameEvent) : bool :=
  match event_type e with
  | FIRST_BLOOD | DOUBLE_KILL | TRIPLE_KILL | MULTI_KILL | ACE | SHUTDOWN
  | TOWER_DESTROYED | NEXUS_LOW | NEXUS_DESTROYED | TEAMFIGHT_END
  | BIG_PLAY | MATCH_END => true
  | _ => false
  end.

Record ChampionState : Type := mkChampion {
  id : string;
  champion : string;
  team : string;
  health : Q;
  max_health : Q;
  level : Z;
  is_alive : bool;
  position : list (string * Q);
  kill_streak : nat;
  recent_kills : list Q
}.

(** One champion record of a snapshot; [None] is an absent key. *)
Record ChampData : Type := mkChampData {
  c_id : option string;
  c_champion : option string;
  c_team : option string;
  c_health : option Q;
  c_max_health : option Q;
  c_level : option Z;
  c_is_alive : option bool;
  c_position : option (list (string * Q))
}.

(** One snapshot; [None] is an absent key. *)
Record Snapshot : Type := mkSnapshot {
  s_tick : option Z;
  s_match_time : option Q;
  s_status : option string;
  s_champions : option (list ChampData);
  s_blue_nexus_health : option Q;
  s_red_nexus_health : option Q;
  s_winner : option string
}.

Record EventDetector : Type := mkDetector {
  previous_state : option Snapshot;
  champion_states : list (string * ChampionState);
  first_blood_occurred : bool;
  team_alive_count : list (string * nat);
  towers_destroyed : list (string * nat);
  match_started : bool
}.

(** [EventDetector.__init__] *)
Definition init : EventDetector :=
  {| previous_state := None;
     champion_states := [];
     first_blood_occurred := false;
     team_alive_count := [("blue", 0); ("red", 0)];
     towers_destroyed := [("blue", 0); ("red", 0)];
     match_started := false |}.

(** *** Attribute assignments *)

Definition set_champion_states (self : EventDetector)
    (cs : list (string * ChampionState)) : EventDetector :=
  {| previous_state := previous_state self;
     champion_states := cs;
     first_blood_occurred := first_blood_occurred self;
     team_alive_count := team_alive_count self;
     towers_destroyed := towers_destroyed self;
     match_started := match_started self |}.

Definition set_first_blood_occurred (self : EventDetector) (b : bool)
  : EventDetector :=
  {| previous_state := previous_state self;
     champion_states := champion_states self;
     first_blood_occurred := b;
     team_alive_count := team_alive_count self;
     towers_destroyed := towers_destroyed self;
     match_started := match_started self |}.

Definition set_team_alive_count (self : EventDetector)
    (tac : list (string * nat)) : EventDetector :=
  {| previous_state := previous_state self;
     champion_states := champion_states self;
     first_blood_occurred := first_blood_occurred self;
     team_alive_count := tac;
     towers_destroyed := towers_destroyed self;
     match_started := match_started self |}.

Definition set_match_started (self : EventDetector) (b : bool)
  : EventDetector :=
  {| previous_state := previous_state self;
     champion_states := champion_states self;
     first_blood_occurred := first_blood_occurred self;
     team_alive_count := team_alive_count self;
     towers_destroyed := towers_destroyed self;
     match_started := b |}.

Definition set_previous_state (self : EventDetector) (s : Snapshot)
  : EventDetector :=
  {| previous_state := Some s;
     champion_states := champion_states self;
     first_blood_occurred := first_blood_occurred self;
     team_alive_count := team_alive_count self;
     towers_destroyed := towers_destroyed self;
     match_started := match_started self |}.

(** [killer.kill_streak += 1; killer.recent_kills.append(timestamp);
     killer.recent_kills = [t for t in killer.recent_kills
                            if timestamp - t < 10]] *)
Definition credit_kill (timestamp : Q) (killer : ChampionState)
  : ChampionState :=
  {| id := id killer; champion := champion killer; team := team killer;
     health := health killer; max_health := max_health killer;
     level := level killer; is_alive := is_alive killer;
     position := position killer;
     kill_streak := S (kill_streak killer);
     recent_kills :=
       List.filter (fun t => Qltb (timestamp - t) 10)
                   (recent_kills killer ++ [timestamp]) |}.

(** [prev_state.kill_streak = 0] *)
Definition reset_streak (c : ChampionState) : ChampionState :=
  {| id := id c; champion := champion c; team := team c;
     health := health c; max_health := max_health c;
     level := level c; is_alive := is_alive c;
     position := position c;
     kill_streak := 0;
     recent_kills := recent_kills c |}.

(** The five assignments under [# Update state]. *)
Definition refresh (h mh : Q) (lvl : Z) (alive : bool)
    (pos : list (string * Q)) (c : ChampionState) : ChampionState :=
  {| id := id c; champion := champion c; team := team c;
     health := h; max_health := mh;
     level := lvl; is_alive := alive;
     position := pos;
     kill_streak := kill_streak c;
     recent_kills := recent_kills c |}.

Definition origin : list (string * Q) := [("x", 0%Q); ("y", 0%Q)].

(** *** [_find_likely_killer]

    The source compares Euclidean distances [(dx**2 + dy**2) ** 0.5];
    the square root is strictly increasing, so over exact numbers the
    comparison [dist < closest_dist] is the comparison of the squared
    distances, which is what [dist2] holds.  [closest_dist = None] is
    [float("inf")].  The loop runs over [champion_states.values()] in
    insertion order and carries the key of [closest] along with it. *)

Definition enemy_of (victim_team : string) : string :=
  if String.eqb victim_team "blue" then "red" else "blue".

Definition closer (dist2 : Q) (closest_dist : option Q) : bool :=
  match closest_dist with
  | None => true
  | Some d => Qltb dist2 d
  end.

Fixpoint killer_loop (victim : ChampionState) (enemy_team : string)
    (items : list (string * ChampionState))
    (closest : option (string * ChampionState)) (closest_dist : option Q)
  : result (option (string * ChampionState)) :=
  match items with
  | [] => Ok closest
  | (key, champ) :: rest =>
      if negb (String.eqb (team champ) enemy_team) || negb (is_alive champ)
      then killer_loop victim enemy_team rest closest closest_dist
      else
        cx <- getitem (position champ) "x" ;;;
        vx <- getitem (position victim) "x" ;;;
        cy <- getitem (position champ) "y" ;;;
        vy <- getitem (position victim) "y" ;;;
        let dist2 := ((cx - vx) * (cx - vx) + (cy - vy) * (cy - vy))%Q in
        if closer dist2 closest_dist
        then killer_loop victim enemy_team rest (Some (key, champ)) (Some dist2)
        else killer_loop victim enemy_team rest closest closest_dist
  end.

Definition find_likely_killer (self : EventDetector) (victim : ChampionState)
  : result (option (string * ChampionState)) :=
  killer_loop victim (enemy_of (team victim)) (champion_states self) None None.

(** *** [_on_champion_death]

    [vid] is the key under which the [victim] object is stored; [victim]
    is its content on entry.  The killer object is mutated in the store;
    the later reads [victim.kill_streak] go through [victim_now], which
    sees that mutation when killer and victim are the same object. *)

Definition opt_str (o : option string) : value :=
  match o with Some s => VStr s | None => VNone end.

Definition kill_data (victim : ChampionState)
    (killer : option (string * ChampionState)) : list (string * value) :=
  [ ("victim_id", VStr (id victim));
    ("victim", VStr (champion victim));
    ("victim_team", VStr (team victim));
    ("killer_id", match killer with Some (_, k) => VStr (id k) | None => VNone end);
    ("killer", match killer with Some (_, k) => VStr (champion k) | None => VStr "Unknown" end);
    ("killer_team", match killer with Some (_, k) => VStr (team k) | None => VNone end) ].

Definition multikill_events (killer : ChampionState) (tick : Z) (timestamp : Q)
  : list GameEvent :=
  let recent_count := length (recent_kills killer) in
  if Nat.eqb recent_count 2 then
    [ mkEvent DOUBLE_KILL timestamp tick
        [("champion", VStr (champion killer)); ("team", VStr (team killer))] ]
  else if Nat.eqb recent_count 3 then
    [ mkEvent TRIPLE_KILL timestamp tick
        [("champion", VStr (champion killer)); ("team", VStr (team killer))] ]
  else if Nat.ltb 3 recent_count then
    [ mkEvent MULTI_KILL timestamp tick
        [("champion", VStr (champion killer)); ("team", VStr (team killer));
         ("count", VInt (Z.of_nat recent_count))] ]
  else [].

Definition shutdown_events (victim killer : ChampionState) (tick : Z)
    (timestamp : Q) : list GameEvent :=
  if Nat.leb 3 (kill_streak victim) then
    [ mkEvent SHUTDOWN timestamp tick
        [("victim", VStr (champion victim));
         ("killer", VStr (champion killer));
         ("streak", VInt (Z.of_nat (kill_streak victim)))] ]
  else [].

Definition on_champion_death (self : EventDetector) (vid : string)
    (victim : ChampionState) (tick : Z) (timestamp : Q)
  : result (EventDetector * list GameEvent) :=
  killer <- find_likely_killer self victim ;;;
  let kd := kill_data victim killer in
  let '(self1, events1) :=
    if negb (first_blood_occurred self)
    then (set_first_blood_occurred self true,
          [mkEvent FIRST_BLOOD timestamp tick kd])
    else (self, [mkEvent CHAMPION_KILL timestamp tick kd]) in
  match killer with
  | None => Ok (self1, events1)
  | Some (kid, kobj) =>
      let self2 :=
        set_champion_states self1
          (dict_alter (credit_kill timestamp) kid (champion_states self1)) in
      let killer_now := credit_kill timestamp kobj in
      let victim_now :=
        if String.eqb kid vid then credit_kill timestamp victim else victim in
      Ok (self2,
          events1 ++ multikill_events killer_now tick timestamp
                  ++ shutdown_events victim_now killer_now tick timestamp)
  end.

(** *** [_process_champion] *)

Definition new_champion (champ_id : string) (cd : ChampData) : ChampionState :=
  {| id := champ_id;
     champion := default "Unknown" (c_champion cd);
     team := default "blue" (c_team cd);
     health := default 0%Q (c_health cd);
     max_health := default 600%Q (c_max_health cd);
     level := default 1%Z (c_level cd);
     is_alive := default true (c_is_alive cd);
     position := default origin (c_position cd);
     kill_streak := 0;
     recent_kills := [] |}.

Definition level_events (champ_id : string) (prev_state : ChampionState)
    (lvl : Z) (tick : Z) (timestamp : Q) : list GameEvent :=
  if Z.ltb (level prev_state) lvl then
    mkEvent LEVEL_UP timestamp tick
      [("champion_id", VStr champ_id);
       ("champion", VStr (champion prev_state));
       ("team", VStr (team prev_state));
       ("new_level", VInt lvl)]
    :: (if Z.eqb lvl 6 then
          [ mkEvent ULTIMATE_READY timestamp tick
              [("champion_id", VStr champ_id);
               ("champion", VStr (champion prev_state));
               ("team", VStr (team prev_state))] ]
        else [])
  else [].

Definition process_champion (self : EventDetector) (champ_data : ChampData)
    (tick : Z) (timestamp : Q) : result (EventDetector * list GameEvent) :=
  let champ_id := default "" (c_id champ_data) in
  match dict_get champ_id (champion_states self) with
  | None =>
      Ok (set_champion_states self
            (dict_set champ_id (new_champion champ_id champ_data)
                      (champion_states self)),
          [])
  | Some prev_state =>
      let alive := default true (c_is_alive champ_data) in
      let lvl := default 1%Z (c_level champ_data) in
      r <- (if is_alive prev_state && negb alive
            then on_champion_death self champ_id prev_state tick timestamp
            else Ok (self, [])) ;;;
      let '(self1, death_events) := r in
      let self2 :=
        if negb (is_alive prev_state) && alive
        then set_champion_states self1
               (dict_alter reset_streak champ_id (champion_states self1))
        else self1 in
      let self3 :=
        set_champion_states self2
          (dict_alter
             (refresh (default 0%Q (c_health champ_data))
                      (default 600%Q (c_max_health champ_data))
                      lvl alive
                      (default origin (c_position champ_data)))
             champ_id (champion_states self2)) in
      Ok (self3,
          death_events ++ level_events champ_id prev_state lvl tick timestamp)
  end.

(** *** [_check_ace] *)

Definition alive_count (cs : list (string * ChampionState)) (t : string) : nat :=
  length (List.filter (fun c => String.eqb (team c) t && is_alive c)
                      (dict_values cs)).

Definition check_ace_team (t : string) (tick : Z) (timestamp : Q)
    (acc : EventDetector * list GameEvent) : EventDetector * list GameEvent :=
  let '(self, events) := acc in
  let alive := alive_count (champion_states self) t in
  let prev_alive := default 0 (dict_get t (team_alive_count self)) in
  let events' :=
    if Nat.ltb 0 prev_alive && Nat.eqb alive 0
    then events ++
         [ mkEvent ACE timestamp tick
             [("aced_team", VStr t);
              ("by_team", VStr (if String.eqb t "blue" then "red" else "blue"))] ]
    else events in
  (set_team_alive_count self (dict_set t alive (team_alive_count self)), events').

Definition check_ace (self : EventDetector) (tick : Z) (timestamp : Q)
  : EventDetector * list GameEvent :=
  fold_left (fun acc t => check_ace_team t tick timestamp acc)
            ["blue"; "red"] (self, []).

(** *** [_process_structures] *)

Definition nexus_health_key (t : string) (state : Snapshot) : option Q :=
  if String.eqb t "blue" then s_blue_nexus_health state
  else s_red_nexus_health state.

Definition nexus_events (t : string) (state : Snapshot) (tick : Z)
    (timestamp : Q) : list GameEvent :=
  let nexus_health := default 5000%Q (nexus_health_key t state) in
  if Qleb nexus_health 1000 && Qltb 0 nexus_health
  then [ mkEvent NEXUS_LOW timestamp tick
           [("team", VStr t); ("health", VNum nexus_health)] ]
  else [].

Definition process_structures (state : Snapshot) (tick : Z) (timestamp : Q)
  : list GameEvent :=
  nexus_events "blue" state tick timestamp
  ++ nexus_events "red" state tick timestamp.

(** *** [detect] *)

Definition status_is (state : Snapshot) (s : string) : bool :=
  match s_status state with
  | Some s' => String.eqb s' s
  | None => false
  end.

Fixpoint process_champions (self : EventDetector) (champions : list ChampData)
    (tick : Z) (timestamp : Q) : result (EventDetector * list GameEvent) :=
  match champions with
  | [] => Ok (self, [])
  | champ_data :: rest =>
      r1 <- process_champion self champ_data tick timestamp ;;;
      r2 <- process_champions (fst r1) rest tick timestamp ;;;
      Ok (fst r2, snd r1 ++ snd r2)
  end.

Definition detect (self : EventDetector) (current_state : Snapshot)
  : result (EventDetector * list GameEvent) :=
  let tk := default 0%Z (s_tick current_state) in
  let ts := default 0%Q (s_match_time current_state) in
  let '(self1, ev_start) :=
    if negb (match_started self) && status_is current_state "playing"
    then (set_match_started self true, [mkEvent MATCH_START ts tk []])
    else (self, []) in
  r <- process_champions self1 (default [] (s_champions current_state)) tk ts ;;;
  let '(self2, ev_champs) := r in
  let '(self3, ev_ace) := check_ace self2 tk ts in
  let ev_struct := process_structures current_state tk ts in
  let ev_end :=
    if status_is current_state "ended"
    then [ mkEvent MATCH_END ts tk
             [("winner", opt_str (s_winner current_state));
              ("duration", VNum ts)] ]
    else [] in
  Ok (set_previous_state self3 current_state,
      ev_start ++ ev_champs ++ ev_ace ++ ev_struct ++ ev_end).

(** Feeding a run of snapshots to one detector, in order; the result
    keeps the event list of every call. *)
Fixpoint run (self : EventDetector) (snapshots : list Snapshot)
  : result (EventDetector * list (list GameEvent)) :=
  match snapshots with
  | [] => Ok (self, [])
  | s :: rest =>
      r1 <- detect self s ;;;
      r2 <- run (fst r1) rest ;;;
      Ok (fst r2, snd r1 :: snd r2)
  end.

End Detector.

(* ===================================================================== *)
(** ** commentary_generator.py, the template fast path                    *)
(* ===================================================================== *)

Module Commentary.
Import Detector.

(** The module-level table [TEMPLATES]; [None] is an absent key. *)
Definition TEMPLATES (t : EventType) : option (list string) :=
  match t with
  | MATCH_START => Some
      [ "Welcome to the Rift! The match has begun!";
        "Let's get ready to rumble! Match is starting!";
        "Champions are taking their positions. The battle begins!" ]
  | FIRST_BLOOD => Some
      [ "{killer} draws first blood on {victim}!";
        "FIRST BLOOD! {killer} takes down {victim}!";
        "{killer} gets the first kill of the game against {victim}!" ]
  | CHAMPION_KILL => Some
      [ "{killer} eliminates {victim}!";
        "{victim} has been slain by {killer}.";
        "{killer} takes down {victim}!";
        "And {victim} goes down to {killer}!" ]
  | DOUBLE_KILL => Some
      [ "DOUBLE KILL for {champion}!";
        "{champion} picks up a double kill!";
        "Two down! {champion} is on fire!" ]
  | TRIPLE_KILL => Some
      [ "TRIPLE KILL! {champion} is unstoppable!";
        "{champion} with the TRIPLE KILL!";
        "Three kills for {champion}! What a play!" ]
  | MULTI_KILL => Some
      [ "{champion} IS ON A RAMPAGE! {count} KILLS!";
        "LEGENDARY! {champion} with {count} kills!";
        "{champion} is absolutely dominating with {count} kills!" ]
  | SHUTDOWN => Some
      [ "{killer} SHUTS DOWN {victim}! End of a {streak} kill streak!";
        "The rampage is over! {killer} stops {victim}!";
        "{killer} puts an end to {victim}'s killing spree!" ]
  | ACE => Some
      [ "ACE! {by_team} team wipes out {aced_team}!";
        "ACED! Not a single {aced_team} champion standing!";
        "Total annihilation! {by_team} aces {aced_team}!" ]
  | TOWER_DESTROYED => Some
      [ "{team}'s tower has been destroyed!";
        "Tower down for {team}!";
        "Another tower falls for {team}!" ]
  | NEXUS_LOW => Some
      [ "{team}'s nexus is critical! Only {health} HP remaining!";
        "The {team} nexus is under heavy attack!";
        "Things are looking dire for {team}!" ]
  | NEXUS_DESTROYED => Some
      [ "{winner} destroys the nexus! VICTORY!";
        "GG! {winner} wins the match!";
        "And that's the game! {winner} takes the victory!" ]
  | LEVEL_UP => Some
      [ "{champion} reaches level {new_level}.";
        "{champion} levels up to {new_level}!" ]
  | ULTIMATE_READY => Some
      [ "{champion}'s ultimate is now available!";
        "Watch out! {champion} has their ultimate ready!" ]
  | MATCH_END => Some
      [ "GG! {winner} wins in {duration:.0f} seconds!";
        "What a match! {winner} takes the victory!";
        "And it's over! {winner} claims victory!" ]
  | CLOSE_FIGHT | TEAMFIGHT_START | TEAMFIGHT_END
  | MINION_WAVE | PUSH_ADVANTAGE | BIG_PLAY => None
  end.

(** *** [str.format] applied to the payload as keyword arguments

    The format string is read left to right into pieces, as Python's
    markup iterator does, and the pieces are rendered in that order, so
    the first failing piece decides the exception.  Modelled subset:
    literal text, the escapes [{{] and [}}], and replacement fields
    [{name}] and [{name:spec}].  A field whose name is empty or a number
    is positional.  Conversions ([!r]), attribute and index access and
    nested fields are outside the subset and read as [Malformed]; no
    template of [TEMPLATES] uses them. *)

Inductive piece : Type :=
| Lit (c : ascii)
| Field (name spec : string)
| Malformed.

Inductive pstate : Type :=
| Outside
| InName (name : string)
| InSpec (name spec : string).

Definition snoc (s : string) (c : ascii) : string :=
  String.append s (String c EmptyString).

Definition unsupported_in_name (c : ascii) : bool :=
  Ascii.eqb c "{" || Ascii.eqb c "!" || Ascii.eqb c "." || Ascii.eqb c "[".

Fixpoint parse_template (st : pstate) (s : string) : list piece :=
  match s with
  | EmptyString =>
      match st with
      | Outside => []
      | _ => [Malformed]
      end
  | String c rest =>
      match st with
      | Outside =>
          if Ascii.eqb c "{" then
            match rest with
            | String c2 rest2 =>
                if Ascii.eqb c2 "{" then Lit "{" :: parse_template Outside rest2
                else parse_template (InName EmptyString) rest
            | EmptyString => [Malformed]
            end
          else if Ascii.eqb c "}" then
            match rest with
            | String c2 rest2 =>
                if Ascii.eqb c2 "}" then Lit "}" :: parse_template Outside rest2
                else [Malformed]
            | EmptyString => [Malformed]
            end
          else Lit c :: parse_template Outside rest
      | InName name =>
          if Ascii.eqb c "}" then Field name EmptyString :: parse_template Outside rest
          else if Ascii.eqb c ":" then parse_template (InSpec name EmptyString) rest
          else if unsupported_in_name c then [Malformed]
          else parse_template (InName (snoc name c)) rest
      | InSpec name spec =>
          if Ascii.eqb c "}" then Field name spec :: parse_template Outside rest
          else if Ascii.eqb c "{" then [Malformed]
          else parse_template (InSpec name (snoc spec c)) rest
      end
  end.

Definition is_digit (c : ascii) : bool :=
  (48 <=? nat_of_ascii c)%nat && (nat_of_ascii c <=? 57)%nat.

Fixpoint all_digits (s : string) : bool :=
  match s with
  | EmptyString => true
  | String c rest => is_digit c && all_digits rest
  end.

(** The names a template refers to, in order. *)
Fixpoint field_names (ps : list piece) : list string :=
  match ps with
  | [] => []
  | Field name _ :: rest => name :: field_names rest
  | _ :: rest => field_names rest
  end.

Definition fields_of (template : string) : list string :=
  field_names (parse_template Outside template).

Section Format.
(** How Python prints a float: [str(x)] and [format(x, ".0f")].  The
    digits of a float are outside the model and taken as given. *)
Variable float_str : Q -> string.
Variable float_fixed0 : Q -> string.

Definition str (v : value) : string :=
  match v with
  | VNone => "None"
  | VStr s => s
  | VInt z => NilZero.string_of_int (Z.to_int z)
  | VNum q => float_str q
  end.

(** [format(v, spec)] for the two specs used by [TEMPLATES]; any other
    spec is outside the modelled subset and reported as [ValueError]. *)
Definition format_value (v : value) (spec : string) : result string :=
  if String.eqb spec "" then Ok (str v)
  else if String.eqb spec ".0f" then
    match v with
    | VInt z => Ok (float_fixed0 (inject_Z z))
    | VNum q => Ok (float_fixed0 q)
    | VStr _ => Raise ValueError
    | VNone => Raise TypeError
    end
  else Raise ValueError.

Fixpoint render (data : list (string * value)) (ps : list piece)
  : result string :=
  match ps with
  | [] => Ok EmptyString
  | Lit c :: rest =>
      r <- render data rest ;;; Ok (String c r)
  | Field name spec :: rest =>
      if all_digits name then Raise IndexError
      else
        match dict_get name data with
        | None => Raise (KeyError name)
        | Some v =>
            txt <- format_value v spec ;;;
            r <- render data rest ;;;
            Ok (String.append txt r)
        end
  | Malformed :: _ => Raise ValueError
  end.

Definition format (template : string) (data : list (string * value))
  : result string :=
  render data (parse_template Outside template).

(** [random.choice(templates)], with the drawn number as an argument. *)
Definition random_choice (draw : nat) (templates : list string) : string :=
  nth (draw mod length templates) templates EmptyString.

(** [CommentaryGenerator.generate_template] *)
Definition generate_template (draw : nat) (event : GameEvent)
  : result (option string) :=
  match TEMPLATES (event_type event) with
  | None => Ok None
  | Some [] => Ok None
  | Some templates =>
      let template := random_choice draw templates in
      match format template (data event) with
      | Ok text => Ok (Some text)
      | Raise (KeyError _) => Ok (Some template)
      | Raise e => Raise e
      end
  end.
End Format.

End Commentary.

(* ===================================================================== *)
(** ** main.py, [CommentaryEngine.broadcast_commentary]                   *)
(* ===================================================================== *)

Module Broadcaster.

(** A spectator connection, by identity. *)
Definition conn : Type := nat.

(** The JSON message built at the top of [broadcast_commentary]. *)
Record Message : Type := mkMessage {
  m_type : string;
  m_text : string;
  m_commentaryType : string;
  m_timestamp : Q
}.

(** What one [await ws.send(message)] did. *)
Inductive outcome : Type :=
| Delivered (m : Message)
| ConnectionClosed.

Definition delivered (a : conn * outcome) : bool :=
  match snd a with
  | Delivered _ => true
  | ConnectionClosed => false
  end.

(** [ws.send(message)] on a connection that is closed raises
    [ConnectionClosed]; on an open one it delivers. *)
Definition send (closed : conn -> bool) (ws : conn) (m : Message) : outcome :=
  if closed ws then ConnectionClosed else Delivered m.

(** One iteration of [for ws in self.spectators]: the [try] either sends
    or adds [ws] to [disconnected]. *)
Definition fan_out_step (closed : conn -> bool) (m : Message)
    (acc : gset conn * list (conn * outcome)) (ws : conn)
  : gset conn * list (conn * outcome) :=
  let '(disconnected, log) := acc in
  match send closed ws m with
  | Delivered m' => (disconnected, log ++ [(ws, Delivered m')])
  | ConnectionClosed => ({[ws]} ∪ disconnected, log ++ [(ws, ConnectionClosed)])
  end.

(** [broadcast_commentary]: returns the new [self.spectators] and the
    log of the send attempts of this call, in the order of the pass.
    [now] is [asyncio.get_event_loop().time()]. *)
Definition broadcast_commentary (closed : conn -> bool)
    (spectators : gset conn) (text commentary_type : string) (now : Q)
  : gset conn * list (conn * outcome) :=
  let message := mkMessage "commentary" text commentary_type now in
  let '(disconnected, log) :=
    fold_left (fan_out_step closed message) (elements spectators) (∅, []) in
  (spectators ∖ disconnected, log).

End Broadcaster.

(* ===================================================================== *)
(** ** main.py, [CommentaryEngine.process_game_update]                    *)
(* ===================================================================== *)

Module Engine.
Import Detector Commentary Broadcaster.

(** What callers pass as [commentary_type]: [process_game_update] passes
    [event.event_type], a member of the plain [Enum] class [EventType];
    [enhance_commentary] passes the string "enhanced". *)
Inductive commentary_type : Type :=
| AsText (s : string)
| AsEvent (t : EventType).

(** The first statement of [broadcast_commentary], [json.dumps] of the
    message dictionary.  The standard encoder serialises [str] and
    numbers and raises [TypeError] on any other object, a member of a
    plain [Enum] included. *)
Definition json_dumps_message (text : string) (ct : commentary_type) (now : Q)
  : result Message :=
  match ct with
  | AsText s => Ok (mkMessage "commentary" text s now)
  | AsEvent _ => Raise TypeError
  end.

(** [broadcast_commentary] as its callers reach it: serialisation first,
    then the fan-out of [Broadcaster.broadcast_commentary]. *)
Definition broadcast (closed : conn -> bool) (spectators : gset conn)
    (text : string) (ct : commentary_type) (now : Q)
  : result (gset conn * list (conn * outcome)) :=
  match json_dumps_message text ct now with
  | Ok m =>
      Ok (broadcast_commentary closed spectators (m_text m)
            (m_commentaryType m) (m_timestamp m))
  | Raise e => Raise e
  end.

(** The coroutines handed to [asyncio.create_task]. *)
Inductive task : Type :=
| EnhanceCommentary (event : GameEvent)
| SpeakCommentary (text : string).

(** The engine: its detector, its spectators, the module constant
    [ENABLE_LLM] and whether [self.tts_engine] is set. *)
Record CommentaryEngine : Type := mkEngine {
  event_detector : EventDetector;
  spectators : gset conn;
  enable_llm : bool;
  has_tts : bool
}.

Section Update.
(** How floats print, the closed connections, the number that
    [random.choice] draws for the [i]-th event of the call and the loop
    time at its broadcast. *)
Variable float_str : Q -> string.
Variable float_fixed0 : Q -> string.
Variable closed : conn -> bool.
Variable draws : nat -> nat.
Variable now : nat -> Q.

(** The [for event in events] loop, from the [i]-th event on; it carries
    the spectator set, the sends made and the tasks created so far. *)
Fixpoint announce (self : CommentaryEngine) (events : list GameEvent) (i : nat)
    (members : gset conn) (log : list (conn * outcome)) (tasks : list task)
  : result (gset conn * list (conn * outcome) * list task) :=
  match events with
  | [] => Ok (members, log, tasks)
  | event :: rest =>
      commentary <- generate_template float_str float_fixed0 (draws i) event ;;;
      match commentary with
      | Some text =>
          if String.eqb text "" then announce self rest (S i) members log tasks
          else
            r <- broadcast closed members text (AsEvent (event_type event))
                   (now i) ;;;
            let '(members', sent) := r in
            let tasks1 :=
              if enable_llm self && is_major event
              then tasks ++ [EnhanceCommentary event] else tasks in
            let tasks2 :=
              if has_tts self && is_major event
              then tasks1 ++ [SpeakCommentary text] else tasks1 in
            announce self rest (S i) members' (log ++ sent) tasks2
      | None => announce self rest (S i) members log tasks
      end
  end.

(** [process_game_update]: the engine after the call, the sends made and
    the tasks created. *)
Definition process_game_update (self : CommentaryEngine) (data : Snapshot)
  : result (CommentaryEngine * list (conn * outcome) * list task) :=
  r <- detect (event_detector self) data ;;;
  let '(detector', events) := r in
  r2 <- announce self events 0 (spectators self) [] [] ;;;
  let '(members', log, tasks) := r2 in
  Ok (mkEngine detector' members' (enable_llm self) (has_tts self), log, tasks).
End Update.

End Engine.

(* ===================================================================== *)
(** ** agent-sdk: lom_agent/types.py and examples/simple_bot.py           *)
(* ===================================================================== *)

(** The observation helpers of the SDK and the example bot that uses
    them.  Floats are exact rationals as above; the one operation that
    leaves the rationals, the square root [** 0.5] of [distance_to], is
    a parameter [sqrt] of which nothing is assumed.  The [from_dict]
    constructors of the larger records are not modelled. *)
Module Sdk.

Record Position : Type := mkPosition { pos_x : Q; pos_y : Q }.

(** [Position.from_dict] *)
Definition Position_from_dict (data : list (string * Q)) : Position :=
  mkPosition (default 0%Q (dict_get "x" data)) (default 0%Q (dict_get "y" data)).

(** The dictionary [{"x": p.x, "y": p.y}] that the actions serialise a
    position to. *)
Definition position_dict (p : Position) : list (string * Q) :=
  [("x", pos_x p); ("y", pos_y p)].

(** [Position.__add__] and [Position.__mul__] *)
Definition Position_add (self other : Position) : Position :=
  mkPosition (pos_x self + pos_x other) (pos_y self + pos_y other).

Definition Position_mul (self : Position) (scalar : Q) : Position :=
  mkPosition (pos_x self * scalar) (pos_y self * scalar).

Record AbilityState : Type := mkAbility {
  ab_name : string;
  ab_ready : bool;
  ab_cooldown_remaining : Q;
  ab_mana_cost : Q;
  ab_level_required : option Z;
  ab_unlocked : bool
}.

Record Item : Type := mkItem {
  it_id : string;
  it_name : string;
  it_cost : Z;
  it_stats : list (string * Q)
}.

Record ChampionStats : Type := mkStats {
  attack_damage : Q;
  ability_power : Q;
  armor : Q;
  magic_resist : Q;
  move_speed : Q;
  attack_range : Q;
  attack_speed : Q
}.

Record SelfState : Type := mkSelf {
  me_id : string;
  me_champion : string;
  me_position : Position;
  me_health : Q;
  me_max_health : Q;
  me_mana : Q;
  me_max_mana : Q;
  me_level : Z;
  me_xp : Z;
  me_gold : Z;
  me_is_alive : bool;
  me_abilities : list (string * AbilityState);
  me_items : list Item;
  me_stats : ChampionStats
}.

Record AllyState : Type := mkAlly {
  al_id : string;
  al_champion : string;
  al_position : Position;
  al_health : Q;
  al_max_health : Q;
  al_mana : Q;
  al_max_mana : Q;
  al_level : Z;
  al_is_alive : bool
}.

Record EnemyState : Type := mkEnemy {
  en_id : string;
  en_champion : string;
  en_position : Position;
  en_health : Q;
  en_max_health : Q;
  en_level : Z;
  en_is_alive : bool
}.

Record MinionState : Type := mkMinion {
  mi_id : string;
  mi_position : Position;
  mi_health : Q;
  mi_max_health : Q;
  mi_is_melee : bool
}.

Record StructureState : Type := mkStructures {
  st_blue_nexus_health : Q;
  st_red_nexus_health : Q
}.

Record Observation : Type := mkObservation {
  ob_tick : Z;
  ob_match_time : Q;
  self_state : SelfState;
  allies : list AllyState;
  enemies : list EnemyState;
  allied_minions : list MinionState;
  enemy_minions : list MinionState;
  structures : StructureState
}.

(** The [health_percent] property, the same in every state class. *)
Definition health_percent (health max_health : Q) : Q :=
  if Qltb 0 max_health then (health / max_health)%Q else 0%Q.

(** [SelfState.can_use_ability]; an [AbilityState] object is truthy, so
    [not ability] holds for a missing key only. *)
Definition can_use_ability (self : SelfState) (key : string) : bool :=
  match dict_get key (me_abilities self) with
  | None => false
  | Some ability =>
      ab_ready ability && ab_unlocked ability
      && Qleb (ab_mana_cost ability) (me_mana self)
  end.

(** The actions and their [to_dict]. *)
Inductive Action : Type :=
| MoveAction (target : Position)
| StopAction
| AttackAction (target_id : string)
| AbilityAction (ability : string) (target : option Position)
    (target_id : option string)
| BuyAction (item_id : string).

(** Values of the dictionaries that [to_dict] builds. *)
Inductive jvalue : Type :=
| JStr (s : string)
| JNums (d : list (string * Q)).

Definition to_dict (a : Action) : list (string * jvalue) :=
  match a with
  | MoveAction target =>
      [("action_type", JStr "move"); ("target", JNums (position_dict target))]
  | StopAction => [("action_type", JStr "stop")]
  | AttackAction target_id =>
      [("action_type", JStr "attack"); ("target_id", JStr target_id)]
  | AbilityAction ability target target_id =>
      let result := [("action_type", JStr "ability"); ("ability", JStr ability)] in
      let result :=
        match target with
        | Some t => dict_set "target" (JNums (position_dict t)) result
        | None => result
        end in
      match target_id with
      | Some tid =>
          if String.eqb tid "" then result
          else dict_set "target_id" (JStr tid) result
      | None => result
      end
  | BuyAction item_id =>
      [("action_type", JStr "buy"); ("item_id", JStr item_id)]
  end.

(** Python's [min(items, key=key)]: the first item whose key no other
    item's key is below. *)
Section Min.
Context {A : Type}.
Variable key : A -> Q.

Fixpoint min_from (best : A) (items : list A) : A :=
  match items with
  | [] => best
  | a :: rest =>
      if Qltb (key a) (key best) then min_from a rest else min_from best rest
  end.

Definition min_by (items : list A) : option A :=
  match items with
  | [] => None
  | a :: rest => Some (min_from a rest)
  end.
End Min.

Section Distance.
(** The float square root. *)
Variable sqrt : Q -> Q.

(** [Position.distance_to] *)
Definition distance_to (self other : Position) : Q :=
  sqrt ((pos_x self - pos_x other) * (pos_x self - pos_x other)
        + (pos_y self - pos_y other) * (pos_y self - pos_y other))%Q.

(** [Position.direction_to] *)
Definition direction_to (self other : Position) : Position :=
  let dist := distance_to self other in
  if Qeq_bool dist 0 then mkPosition 0 0
  else mkPosition ((pos_x other - pos_x self) / dist)
                  ((pos_y other - pos_y self) / dist).

(** [Observation.get_nearest_enemy] *)
Definition get_nearest_enemy (self : Observation) : option EnemyState :=
  match enemies self with
  | [] => None
  | _ :: _ =>
      min_by (fun e => distance_to (me_position (self_state self)) (en_position e))
             (List.filter en_is_alive (enemies self))
  end.

(** [Observation.get_nearest_enemy_minion] *)
Definition get_nearest_enemy_minion (self : Observation) : option MinionState :=
  match enemy_minions self with
  | [] => None
  | _ :: _ =>
      min_by (fun m => distance_to (me_position (self_state self)) (mi_position m))
             (enemy_minions self)
  end.

(** [Observation.get_low_health_enemy_minion] *)
Definition get_low_health_enemy_minion (self : Observation) (threshold : Q)
  : option MinionState :=
  let low_health :=
    List.filter
      (fun m => Qleb (health_percent (mi_health m) (mi_max_health m)) threshold)
      (enemy_minions self) in
  match low_health with
  | [] => None
  | _ :: _ =>
      min_by (fun m => distance_to (me_position (self_state self)) (mi_position m))
             low_health
  end.

(** *** [SimpleBot] *)

Record SimpleBot : Type := mkBot {
  bot_team : option string;
  blue_base : Position;
  red_base : Position;
  lane_center : Position
}.

(** [SimpleBot.__init__] *)
Definition new_bot : SimpleBot :=
  mkBot None (mkPosition 800 2000) (mkPosition 7200 2000)
        (mkPosition 4000 2000).

(** [SimpleBot.on_connect] *)
Definition on_connect (self : SimpleBot) (team : string) : SimpleBot :=
  mkBot (Some team) (blue_base self) (red_base self) (lane_center self).

Definition team_is (self : SimpleBot) (t : string) : bool :=
  match bot_team self with
  | Some t' => String.eqb t' t
  | None => false
  end.

(** The block of [decide] under [# Look for enemy champions], for a
    nearest enemy that is alive: the actions it collects. *)
Definition fight (me : SelfState) (nearest_enemy : EnemyState) : list Action :=
  let enemy_dist := distance_to (me_position me) (en_position nearest_enemy) in
  let actions : list Action := [] in
  let actions :=
    if Qltb enemy_dist 600 then
      let actions :=
        if can_use_ability me "Q"
        then actions ++ [AbilityAction "Q" (Some (en_position nearest_enemy))
                           (Some (en_id nearest_enemy))]
        else actions in
      let actions :=
        if Qltb enemy_dist 200 && can_use_ability me "E"
        then
          let escape_dir :=
            direction_to (en_position nearest_enemy) (me_position me) in
          let escape_pos :=
            Position_add (me_position me) (Position_mul escape_dir 300) in
          actions ++ [AbilityAction "E" (Some escape_pos) None]
        else actions in
      if Qltb (health_percent (en_health nearest_enemy)
                 (en_max_health nearest_enemy)) (2 # 5)
         && can_use_ability me "R"
      then actions ++ [AbilityAction "R" (Some (en_position nearest_enemy)) None]
      else actions
    else actions in
  if Qleb enemy_dist (attack_range (me_stats me))
  then actions ++ [AttackAction (en_id nearest_enemy)]
  else if Qltb enemy_dist 800
       then actions ++ [MoveAction (en_position nearest_enemy)]
       else actions.

(** The end of [decide]: the nearest enemy minion, else the push. *)
Definition farm_or_push (obs : Observation) (push_target : Position)
  : list Action :=
  let me := self_state obs in
  match get_nearest_enemy_minion obs with
  | Some nearest_minion =>
      let dist := distance_to (me_position me) (mi_position nearest_minion) in
      if Qleb dist (attack_range (me_stats me))
      then [AttackAction (mi_id nearest_minion)]
      else if Qltb dist 600
           then [MoveAction (mi_position nearest_minion)]
           else [MoveAction push_target]
  | None => [MoveAction push_target]
  end.

(** [SimpleBot.decide] *)
Definition decide (self : SimpleBot) (obs : Observation) : list Action :=
  let me := self_state obs in
  if negb (me_is_alive me) then []
  else
    let push_target := if team_is self "blue" then red_base self
                       else blue_base self in
    let retreat_target := if team_is self "blue" then blue_base self
                          else red_base self in
    if Qltb (health_percent (me_health me) (me_max_health me)) (1 # 4)
    then [MoveAction retreat_target]
    else
      match get_low_health_enemy_minion obs (1 # 4) with
      | Some low_hp_minion =>
          let dist := distance_to (me_position me) (mi_position low_hp_minion) in
          if Qleb dist (attack_range (me_stats me))
          then [AttackAction (mi_id low_hp_minion)]
          else [MoveAction (mi_position low_hp_minion)]
      | None =>
          match get_nearest_enemy obs with
          | Some nearest_enemy =>
              if en_is_alive nearest_enemy then
                match fight me nearest_enemy with
                | [] => farm_or_push obs push_target
                | actions => actions
                end
              else farm_or_push obs push_target
          | None => farm_or_push obs push_target
          end
      end.
End Distance.

End Sdk.

(* ===================================================================== *)
(** ** Observations on detector states and event lists                    *)
(* ===================================================================== *)

(** Names for the blocks of [detect] and [_process_champion] and for the
    parts of an event list that the properties below speak about. *)
Module Observe.
Import Detector.

(** The events of one type in an event list, in order. *)
Definition of_type (t : EventType) (evs : list GameEvent) : list GameEvent :=
  List.filter (fun e => bool_decide (event_type e = t)) evs.

(** The kill event that [_on_champion_death] appends first. *)
Definition kill_event (self : EventDetector) (victim : ChampionState)
    (killer : option (string * ChampionState)) (tick : Z) (timestamp : Q)
  : GameEvent :=
  mkEvent (if first_blood_occurred self then CHAMPION_KILL else FIRST_BLOOD)
          timestamp tick (kill_data victim killer).


(** Event types that [_process_champion] can produce. *)
Definition champion_event (e : GameEvent) : bool :=
  match event_type e with
  | FIRST_BLOOD | CHAMPION_KILL | DOUBLE_KILL | TRIPLE_KILL | MULTI_KILL
  | SHUTDOWN | LEVEL_UP | ULTIMATE_READY => true
  | _ => false
  end.

(** The respawn reset and the [# Update state] block, on the detector
    the death handling left. *)
Definition settle (cd : ChampData) (prev : ChampionState)
    (self1 : EventDetector) : EventDetector :=
  let champ_id := default "" (c_id cd) in
  let alive := default true (c_is_alive cd) in
  let self2 :=
    if negb (is_alive prev) && alive
    then set_champion_states self1
           (dict_alter reset_streak champ_id (champion_states self1))
    else self1 in
  set_champion_states self2
    (dict_alter
       (refresh (default 0%Q (c_health cd)) (default 600%Q (c_max_health cd))
                (default 1%Z (c_level cd)) alive
                (default origin (c_position cd)))
       champ_id (champion_states self2)).

(** The guard of [# Death detection]. *)
Definition death_edge (self : EventDetector) (cd : ChampData) : bool :=
  match dict_get (default "" (c_id cd)) (champion_states self) with
  | Some prev => is_alive prev && negb (default true (c_is_alive cd))
  | None => false
  end.

(** The match-start block of [detect]: state and events. *)
Definition started (self : EventDetector) (snap : Snapshot) : EventDetector :=
  if negb (match_started self) && status_is snap "playing"
  then set_match_started self true else self.

Definition start_events (self : EventDetector) (snap : Snapshot)
    (tk : Z) (ts : Q) : list GameEvent :=
  if negb (match_started self) && status_is snap "playing"
  then [mkEvent MATCH_START ts tk []] else [].

Definition end_events (snap : Snapshot) (tk : Z) (ts : Q) : list GameEvent :=
  if status_is snap "ended"
  then [ mkEvent MATCH_END ts tk
           [("winner", opt_str (s_winner snap)); ("duration", VNum ts)] ]
  else [].

(** Whether the payload of [e] has the string [t] under [key]. *)
Definition about_team (key t : string) (e : GameEvent) : bool :=
  match dict_get key (data e) with
  | Some (VStr s) => String.eqb s t
  | _ => false
  end.

(** The NEXUS_LOW events of a call that are about team [t]. *)
Definition nexus_low_for (t : string) (evs : list GameEvent) : list GameEvent :=
  List.filter (about_team "team" t) (of_type NEXUS_LOW evs).

(** The ACE events of a call in which team [t] is the wiped team. *)
Definition ace_for (t : string) (evs : list GameEvent) : list GameEvent :=
  List.filter (about_team "aced_team" t) (of_type ACE evs).

(** Kill events: the one event every death edge gets. *)
Definition is_kill (e : GameEvent) : bool :=
  match event_type e with
  | FIRST_BLOOD | CHAMPION_KILL => true
  | _ => false
  end.

(** The types of the kill events of an event list, in order. *)
Definition kill_types (evs : list GameEvent) : list EventType :=
  map event_type (List.filter is_kill evs).

(** What [n] deaths in a row are announced as, given the first-blood
    flag before the first of them. *)
Definition announced (flag : bool) (n : nat) : list EventType :=
  match n with
  | 0 => []
  | S m => (if flag then CHAMPION_KILL else FIRST_BLOOD)
           :: repeat CHAMPION_KILL m
  end.

(** The number of death edges (tracked alive, reported not alive) that
    the champion loop of one call meets, each judged against the state
    the loop has reached. *)
Fixpoint edges_in_champions (self : EventDetector) (champs : list ChampData)
    (tk : Z) (ts : Q) : nat :=
  match champs with
  | [] => 0
  | cd :: rest =>
      (if death_edge self cd then 1 else 0) +
      match process_champion self cd tk ts with
      | Ok (self1, _) => edges_in_champions self1 rest tk ts
      | Raise _ => 0
      end
  end.

Definition edges_in_call (self : EventDetector) (snap : Snapshot) : nat :=
  edges_in_champions (started self snap) (default [] (s_champions snap))
    (default 0%Z (s_tick snap)) (default 0%Q (s_match_time snap)).

Fixpoint edges_in_run (self : EventDetector) (snaps : list Snapshot) : nat :=
  match snaps with
  | [] => 0
  | snap :: rest =>
      edges_in_call self snap +
      match detect self snap with
      | Ok (self1, _) => edges_in_run self1 rest
      | Raise _ => 0
      end
  end.











(** Pieces on which a missing field is the first thing to fail: no
    malformed piece, no positional field, and a field with a format
    spec only where no field follows (fields without a spec always
    render). *)
Fixpoint key_error_first (ps : list Commentary.piece) : bool :=
  match ps with
  | [] => true
  | Commentary.Lit _ :: rest => key_error_first rest
  | Commentary.Field name spec :: rest =>
      negb (Commentary.all_digits name) &&
      (if String.eqb spec "" then key_error_first rest
       else match Commentary.field_names rest with
            | [] => true
            | _ :: _ => false
            end)
  | Commentary.Malformed :: _ => false
  end.

(** A window in ascending order. *)
Fixpoint ascending (w : list Q) : Prop :=
  match w with
  | [] => True
  | t :: rest => Forall (fun u => (t <= u)%Q) rest /\ ascending rest
  end.

(** A recent-kill window at time [now]: ascending, nothing from the
    future, and any two entries less than ten seconds apart. *)
Definition window_ok (now : Q) (w : list Q) : Prop :=
  ascending w /\
  Forall (fun t => (t <= now)%Q) w /\
  Forall (fun t => Forall (fun u => (u - t < 10)%Q) w) w.

Definition windows_ok (now : Q) (self : EventDetector) : Prop :=
  Forall (fun c => window_ok now (recent_kills c))
         (dict_values (champion_states self)).

(** The time a snapshot carries. *)
Definition time_of (snap : Snapshot) : Q := default 0%Q (s_match_time snap).

(** Snapshots whose times do not run backwards, from [now] on. *)
Fixpoint nondecreasing (now : Q) (snaps : list Snapshot) : Prop :=
  match snaps with
  | [] => True
  | snap :: rest => (now <= time_of snap)%Q /\ nondecreasing (time_of snap) rest
  end.

(** The time of the last snapshot of a run that starts at [now]. *)
Definition last_time (now : Q) (snaps : list Snapshot) : Q :=
  fold_left (fun _ snap => time_of snap) snaps now.

(** Squared distance of two positions that both have coordinates. *)
Definition dist2 (a b : list (string * Q)) : option Q :=
  match dict_get "x" a, dict_get "x" b, dict_get "y" a, dict_get "y" b with
  | Some xa, Some xb, Some ya, Some yb =>
      Some ((xa - xb) * (xa - xb) + (ya - yb) * (ya - yb))%Q
  | _, _, _, _ => None
  end.


(** The event types [detect] has code for. *)
Definition detectable (t : EventType) : bool :=
  match t with
  | MATCH_START | FIRST_BLOOD | CHAMPION_KILL | DOUBLE_KILL | TRIPLE_KILL
  | MULTI_KILL | SHUTDOWN | LEVEL_UP | ULTIMATE_READY | ACE | NEXUS_LOW
  | MATCH_END => true
  | _ => false
  end.

Definition is_number (v : value) : bool :=
  match v with
  | VInt _ | VNum _ => true
  | _ => false
  end.

(** The payload has what the pieces ask for: every field is present,
    and a field formatted with [.0f] holds a number. *)
Fixpoint covers (payload : list (string * value))
    (ps : list Commentary.piece) : bool :=
  match ps with
  | [] => true
  | Commentary.Lit _ :: rest => covers payload rest
  | Commentary.Field name spec :: rest =>
      negb (Commentary.all_digits name) &&
      match dict_get name payload with
      | Some v =>
          (String.eqb spec "" || (String.eqb spec ".0f" && is_number v))
          && covers payload rest
      | None => false
      end
  | Commentary.Malformed :: _ => false
  end.

(** Pieces with some literal text. *)
Definition has_lit (ps : list Commentary.piece) : bool :=
  existsb (fun p => match p with Commentary.Lit _ => true | _ => false end) ps.

(** The event's type has templates, and its payload covers each. *)
Definition speakable (e : GameEvent) : bool :=
  match Commentary.TEMPLATES (event_type e) with
  | Some (t :: ts) =>
      forallb (fun s =>
                 covers (data e) (Commentary.parse_template Commentary.Outside s)
                 && has_lit (Commentary.parse_template Commentary.Outside s))
              (t :: ts)
  | _ => false
  end.

(** A string without braces. *)
Fixpoint brace_free (s : string) : bool :=
  match s with
  | EmptyString => true
  | String c rest =>
      negb (Ascii.eqb c "{") && negb (Ascii.eqb c "}") && brace_free rest
  end.

(** Same champions, same names and teams, new ones at the end. *)
Definition extends (cs cs' : list (string * ChampionState)) : Prop :=
  (forall k c, dict_get k cs = Some c ->
     exists c', dict_get k cs' = Some c' /\
       id c' = id c /\ champion c' = champion c /\ team c' = team c) /\
  (exists added, dict_keys cs' = dict_keys cs ++ added).


(** An event as [detect] builds them during the call for tick [tk] and
    time [ts]. *)
Definition emitted_ok (tk : Z) (ts : Q) (e : GameEvent) : Prop :=
  timestamp e = ts /\ tick e = tk /\
  detectable (event_type e) = true /\ speakable e = true.

End Observe.

(* ===================================================================== *)
(** ** Concrete snapshots and matches                                     *)
(* ===================================================================== *)

Module Scenario.
Import Detector Observe.

(** A champion record with every key present. *)
Definition champ (cid name tm : string) (alive : bool) (x y : Q) : ChampData :=
  {| c_id := Some cid; c_champion := Some name; c_team := Some tm;
     c_health := Some (if alive then 600%Q else 0%Q);
     c_max_health := Some 600%Q; c_level := Some 1%Z;
     c_is_alive := Some alive;
     c_position := Some [("x", x); ("y", y)] |}.

(** A snapshot of a match in play, nexuses untouched. *)
Definition playing (tk : Z) (ts : Q) (champs : list ChampData) : Snapshot :=
  {| s_tick := Some tk; s_match_time := Some ts; s_status := Some "playing";
     s_champions := Some champs;
     s_blue_nexus_health := Some 5000%Q; s_red_nexus_health := Some 5000%Q;
     s_winner := None |}.

(** A snapshot after the match is over. *)
Definition ended (tk : Z) (ts : Q) (w : string) : Snapshot :=
  {| s_tick := Some tk; s_match_time := Some ts; s_status := Some "ended";
     s_champions := Some [];
     s_blue_nexus_health := Some 5000%Q; s_red_nexus_health := Some 0%Q;
     s_winner := Some w |}.

(** A match whose feed keeps reporting the final state. *)
Definition ended_twice : list Snapshot :=
  [ playing 1 0 []; ended 2 600 "blue"; ended 3 601 "blue" ].

(** The detector after a run from a fresh instance. *)
Definition state_after (snaps : list Snapshot) : EventDetector :=
  match run init snaps with
  | Ok (self, _) => self
  | Raise _ => init
  end.

(** Two champions trade kills: A (blue) dies at 10 s next to B (red),
    respawns, and B dies at 30 s. *)
Definition duel_opening : Snapshot :=
  playing 1 0  [champ "a" "Ahri" "blue" true 0 0;
                champ "b" "Brand" "red" true 1 0].

Definition duel_first_death : Snapshot :=
  playing 2 10 [champ "a" "Ahri" "blue" false 0 0;
                champ "b" "Brand" "red" true 1 0].

Definition duel : list Snapshot :=
  [ duel_opening;
    duel_first_death;
    playing 3 20 [champ "a" "Ahri" "blue" true 0 0;
                  champ "b" "Brand" "red" true 1 0];
    playing 4 30 [champ "a" "Ahri" "blue" true 0 0;
                  champ "b" "Brand" "red" false 1 0] ].


(** A champion alone on the map, before and after it dies. *)
Definition lonely_opening : Snapshot :=
  playing 1 0 [champ "a" "Ahri" "blue" true 0 0].


(** One blue champion against four red ones standing in a row.  [downed]
    is how many of the red champions, from the nearest on, are dead. *)
Definition rampage_frame (tk : Z) (ts : Q) (downed : nat) : Snapshot :=
  playing tk ts
    [ champ "k" "Katarina" "blue" true 0 0;
      champ "v1" "Veigar" "red" (Nat.ltb downed 1) 1 0;
      champ "v2" "Varus" "red" (Nat.ltb downed 2) 2 0;
      champ "v3" "Vayne" "red" (Nat.ltb downed 3) 3 0;
      champ "v4" "Viktor" "red" (Nat.ltb downed 4) 4 0 ].

(** Three kills, one second apart. *)
Definition rampage3 : list Snapshot :=
  [ rampage_frame 1 0 0; rampage_frame 2 1 1;
    rampage_frame 3 2 2; rampage_frame 4 3 3 ].







(** A first-blood event whose payload lacks the victim. *)
Definition nameless_first_blood : GameEvent :=
  mkEvent FIRST_BLOOD 10 2 [("killer", VStr "Brand")].

(** An event of a type that has no template set. *)
Definition big_play : GameEvent :=
  mkEvent BIG_PLAY 10 2 [("champion", VStr "Brand")].

(** Three spectators, of whom number 2 has gone away. *)
Definition audience : gset Broadcaster.conn := {[ 1; 2; 3 ]}.

Definition gone (c : Broadcaster.conn) : bool := Nat.eqb c 2.

(** A record that reports nothing but an id and level 6. *)
Definition reaches_six : ChampData :=
  {| c_id := Some "a"; c_champion := None; c_team := None;
     c_health := None; c_max_health := None; c_level := Some 6%Z;
     c_is_alive := None; c_position := None |}.

(** The champion tracked as Ahri of team blue is reported again under
    another name and team. *)
Definition defector : list Snapshot :=
  [ playing 2 10 [champ "a" "Zed" "red" true 5 5;
                  champ "c" "Cait" "red" true 9 9] ].

End Scenario.

(** Observations for the example bot. *)
Module Arena.
Import Sdk.

(** A square root that is exact on the squares of rationals in lowest
    terms, which is all the sample observations need. *)
Definition exact_sqrt (q : Q) : Q := Z.sqrt (Qnum q) # Pos.sqrt (Qden q).

Definition blue_bot : SimpleBot := on_connect new_bot "blue".

Definition fighter (health : Q) (is_alive : bool) : SelfState :=
  {| me_id := "me"; me_champion := "Garen";
     me_position := mkPosition 1000 2000;
     me_health := health; me_max_health := 1000;
     me_mana := 300; me_max_mana := 300;
     me_level := 3; me_xp := 0; me_gold := 0;
     me_is_alive := is_alive;
     me_abilities := [("Q", mkAbility "Slash" true 0 50 None true)];
     me_items := [];
     me_stats := mkStats 60 0 30 30 325 150 1 |}.

(** A dead enemy on the agent's own spot and an alive one 50 away. *)
Definition ghost : EnemyState :=
  mkEnemy "ghost" "Zed" (mkPosition 1000 2000) 0 1000 3 false.

Definition foe : EnemyState :=
  mkEnemy "foe" "Ashe" (mkPosition 1030 2040) 500 1000 3 true.

(** A healthy minion 500 away and one that reports no maximum health,
    100 away. *)
Definition healthy_minion : MinionState :=
  mkMinion "m1" (mkPosition 1300 2400) 400 400 true.

Definition broken_minion : MinionState :=
  mkMinion "m2" (mkPosition 1060 2080) 0 0 false.

Definition scene (me : SelfState) (minions : list MinionState) : Observation :=
  {| ob_tick := 7; ob_match_time := 35;
     self_state := me; allies := [];
     enemies := [ghost; foe];
     allied_minions := []; enemy_minions := minions;
     structures := mkStructures 5000 5000 |}.

Definition skirmish : Observation := scene (fighter 1000 true) [healthy_minion].


Definition wave : Observation :=
  scene (fighter 1000 true) [healthy_minion; broken_minion].

End Arena.

(* ===================================================================== *)
(** ** Facts about the Python layer                                       *)
(* ===================================================================== *)

Module PyFacts.

Lemma Qltb_lt (x y : Q) : Qltb x y = true <-> (x < y)%Q.
Proof.
  unfold Qltb. rewrite negb_true_iff.
  split; intros H.
  - apply Qnot_le_lt. intros Hle. apply Qle_bool_iff in Hle. congruence.
  - destruct (Qle_bool y x) eqn:E; [|reflexivity].
    apply Qle_bool_iff in E. exfalso. apply (Qlt_not_le _ _ H E).
Qed.

Lemma Qltb_ge (x y : Q) : Qltb x y = false <-> (y <= x)%Q.
Proof.
  unfold Qltb. rewrite negb_false_iff. apply Qle_bool_iff.
Qed.

Lemma Qleb_le (x y : Q) : Qleb x y = true <-> (x <= y)%Q.
Proof. apply Qle_bool_iff. Qed.

Lemma Qleb_gt (x y : Q) : Qleb x y = false <-> (y < x)%Q.
Proof.
  unfold Qleb. split; intros H.
  - apply Qnot_le_lt. intros Hle. apply Qle_bool_iff in Hle. congruence.
  - destruct (Qle_bool x y) eqn:E; [|reflexivity].
    apply Qle_bool_iff in E. exfalso. apply (Qlt_not_le _ _ H E).
Qed.

Section DictFacts.
Context {V : Type}.
Implicit Types (d : list (string * V)) (k : string).


Lemma dict_get_None k d : dict_get k d = None -> ~ In k (dict_keys d).
Proof.
  induction d as [|[k' v'] d IH]; simpl; [tauto|].
  destruct (String.eqb_spec k' k) as [->|Hne]; [discriminate|].
  intros H [Heq|Hin]; [congruence|]. now apply IH.
Qed.


Lemma dict_get_set_eq k v d : dict_get k (dict_set k v d) = Some v.
Proof.
  induction d as [|[k' v'] d IH]; simpl.
  - now rewrite String.eqb_refl.
  - destruct (String.eqb_spec k' k) as [->|Hne]; simpl.
    + now rewrite String.eqb_refl.
    + destruct (String.eqb_spec k' k); [congruence|]. exact IH.
Qed.

Lemma dict_get_set_ne k k' v d :
  k <> k' -> dict_get k' (dict_set k v d) = dict_get k' d.
Proof.
  intros Hne. induction d as [|[k0 v0] d IH]; simpl.
  - destruct (String.eqb_spec k k'); [congruence|reflexivity].
  - destruct (String.eqb_spec k0 k) as [->|Hne0]; simpl.
    + destruct (String.eqb_spec k k'); [congruence|reflexivity].
    + destruct (String.eqb_spec k0 k'); [reflexivity|exact IH].
Qed.

(** A fresh key is appended at the end. *)
Lemma dict_set_fresh k v d :
  dict_get k d = None -> dict_set k v d = d ++ [(k, v)].
Proof.
  induction d as [|[k' v'] d IH]; simpl; [reflexivity|].
  destruct (String.eqb_spec k' k); [discriminate|].
  intros H. now rewrite IH.
Qed.

Lemma dict_get_alter f k k' d :
  dict_get k' (dict_alter f k d) =
  if String.eqb k k' then option_map f (dict_get k' d) else dict_get k' d.
Proof.
  induction d as [|[k0 v0] d IH]; simpl.
  - now destruct (String.eqb k k').
  - destruct (String.eqb_spec k0 k) as [->|Hne0]; simpl.
    + destruct (String.eqb_spec k k'); reflexivity.
    + destruct (String.eqb_spec k0 k') as [->|Hne1].
      * destruct (String.eqb_spec k k'); [congruence|reflexivity].
      * exact IH.
Qed.

Lemma dict_keys_alter f k d : dict_keys (dict_alter f k d) = dict_keys d.
Proof.
  induction d as [|[k0 v0] d IH]; simpl; [reflexivity|].
  destruct (String.eqb k0 k); simpl; [reflexivity|]. now f_equal.
Qed.


Lemma In_dict_alter f k d k' v' :
  In (k', v') (dict_alter f k d) ->
  In (k', v') d \/ exists v, In (k', v) d /\ v' = f v.
Proof.
  induction d as [|[k0 v0] d IH]; simpl; [tauto|].
  destruct (String.eqb k0 k); simpl.
  - intros [[= <- <-]|Hin]; [right; exists v0; split; [now left|reflexivity]|].
    left. now right.
  - intros [Heq|Hin]; [left; now left|].
    destruct (IH Hin) as [H|[v [H1 H2]]]; [left; now right|].
    right. exists v. split; [now right|assumption].
Qed.

Lemma dict_keys_set_fresh k v d :
  dict_get k d = None -> dict_keys (dict_set k v d) = dict_keys d ++ [k].
Proof.
  intros H. rewrite (dict_set_fresh _ _ _ H). unfold dict_keys.
  now rewrite map_app.
Qed.
End DictFacts.

Lemma bind_Ok {A B} (r : result A) (k : A -> result B) (b : B) :
  Py.bind r k = Ok b -> exists a, r = Ok a /\ k a = Ok b.
Proof. destruct r as [a|e]; simpl; [eauto|discriminate]. Qed.

End PyFacts.

(* ===================================================================== *)
(** ** Structure of the detector's steps                                  *)
(* ===================================================================== *)

Module DetectorFacts.
Import Detector Observe PyFacts.

Lemma of_type_app t l1 l2 : of_type t (l1 ++ l2) = of_type t l1 ++ of_type t l2.
Proof. apply List.filter_app. Qed.

Lemma filter_nil_Forall {A} (f : A -> bool) (l : list A) :
  Forall (fun x => f x = false) l -> List.filter f l = [].
Proof.
  induction 1 as [|x l Hx _ IH]; simpl; [reflexivity|]. now rewrite Hx.
Qed.

Lemma set_flag_true_id self :
  first_blood_occurred self = true -> set_first_blood_occurred self true = self.
Proof. destruct self; simpl; intros ->; reflexivity. Qed.

(** *** [_on_champion_death], by the outcome of the killer search *)

Lemma on_death_raise self vid victim tk ts e :
  find_likely_killer self victim = Raise e ->
  on_champion_death self vid victim tk ts = Raise e.
Proof. unfold on_champion_death. intros ->. reflexivity. Qed.

Lemma on_death_unresolved self vid victim tk ts :
  find_likely_killer self victim = Ok None ->
  on_champion_death self vid victim tk ts =
  Ok (set_first_blood_occurred self true,
      [kill_event self victim None tk ts]).
Proof.
  unfold on_champion_death, kill_event. intros ->. simpl.
  destruct (first_blood_occurred self) eqn:E; simpl; [|reflexivity].
  now rewrite set_flag_true_id.
Qed.

Lemma on_death_resolved self vid victim tk ts kid kobj :
  find_likely_killer self victim = Ok (Some (kid, kobj)) ->
  on_champion_death self vid victim tk ts =
  Ok (set_champion_states (set_first_blood_occurred self true)
        (dict_alter (credit_kill ts) kid (champion_states self)),
      kill_event self victim (Some (kid, kobj)) tk ts
      :: multikill_events (credit_kill ts kobj) tk ts
      ++ shutdown_events
           (if String.eqb kid vid then credit_kill ts victim else victim)
           (credit_kill ts kobj) tk ts).
Proof.
  unfold on_champion_death, kill_event. intros ->. simpl.
  destruct (first_blood_occurred self) eqn:E; simpl; [|reflexivity].
  now rewrite set_flag_true_id.
Qed.

(** *** The killer search *)








(** *** [_process_champion] on a tracked champion *)

Lemma process_champion_unseen self cd tk ts :
  dict_get (default "" (c_id cd)) (champion_states self) = None ->
  process_champion self cd tk ts =
  Ok (set_champion_states self
        (champion_states self ++
         [(default "" (c_id cd), new_champion (default "" (c_id cd)) cd)]),
      []).
Proof.
  intros H. unfold process_champion. rewrite H.
  now rewrite (dict_set_fresh _ _ _ H).
Qed.

Lemma process_champion_no_edge self cd tk ts prev :
  dict_get (default "" (c_id cd)) (champion_states self) = Some prev ->
  is_alive prev && negb (default true (c_is_alive cd)) = false ->
  process_champion self cd tk ts =
  Ok (settle cd prev self,
      level_events (default "" (c_id cd)) prev (default 1%Z (c_level cd)) tk ts).
Proof.
  intros H He. unfold process_champion. rewrite H, He. reflexivity.
Qed.

Lemma process_champion_edge self cd tk ts prev :
  dict_get (default "" (c_id cd)) (champion_states self) = Some prev ->
  is_alive prev && negb (default true (c_is_alive cd)) = true ->
  process_champion self cd tk ts =
  (r <- on_champion_death self (default "" (c_id cd)) prev tk ts ;;;
   Ok (settle cd prev (fst r),
       snd r ++ level_events (default "" (c_id cd)) prev
                             (default 1%Z (c_level cd)) tk ts)).
Proof.
  intros H He. unfold process_champion. rewrite H, He.
  destruct (on_champion_death _ _ _ _ _) as [[s1 ev]|e]; reflexivity.
Qed.

Lemma settle_flag cd prev self1 :
  first_blood_occurred (settle cd prev self1) = first_blood_occurred self1.
Proof. unfold settle. now destruct (negb (is_alive prev) && _). Qed.

Lemma settle_team_alive_count cd prev self1 :
  team_alive_count (settle cd prev self1) = team_alive_count self1.
Proof. unfold settle. now destruct (negb (is_alive prev) && _). Qed.

Lemma settle_match_started cd prev self1 :
  match_started (settle cd prev self1) = match_started self1.
Proof. unfold settle. now destruct (negb (is_alive prev) && _). Qed.

Lemma level_events_types cid prev lvl tk ts :
  Forall (fun e => event_type e = LEVEL_UP \/ event_type e = ULTIMATE_READY)
         (level_events cid prev lvl tk ts).
Proof.
  unfold level_events. destruct (Z.ltb _ _); [|constructor].
  constructor; [now left|]. destruct (Z.eqb _ _); [|constructor].
  constructor; [now right|constructor].
Qed.

Lemma multikill_events_types k tk ts :
  Forall (fun e => event_type e = DOUBLE_KILL \/ event_type e = TRIPLE_KILL
                   \/ event_type e = MULTI_KILL)
         (multikill_events k tk ts).
Proof.
  unfold multikill_events.
  destruct (Nat.eqb _ 2); [constructor; [auto|constructor]|].
  destruct (Nat.eqb _ 3); [constructor; [auto|constructor]|].
  destruct (Nat.ltb 3 _); [constructor; [auto|constructor]|constructor].
Qed.

Lemma shutdown_events_types v k tk ts :
  Forall (fun e => event_type e = SHUTDOWN) (shutdown_events v k tk ts).
Proof.
  unfold shutdown_events. destruct (Nat.leb _ _); repeat constructor.
Qed.

Lemma on_death_events self vid victim tk ts self' evs :
  on_champion_death self vid victim tk ts = Ok (self', evs) ->
  exists killer,
    find_likely_killer self victim = Ok killer /\
    first_blood_occurred self' = true /\
    team_alive_count self' = team_alive_count self /\
    match_started self' = match_started self /\
    exists rest,
      evs = kill_event self victim killer tk ts :: rest /\
      Forall (fun e => event_type e = DOUBLE_KILL \/ event_type e = TRIPLE_KILL
                       \/ event_type e = MULTI_KILL \/ event_type e = SHUTDOWN)
             rest /\
      (killer = None -> rest = [] /\ champion_states self' = champion_states self).
Proof.
  intros H. destruct (find_likely_killer self victim) as [[[kid kobj]|]|e] eqn:Hk.
  - rewrite (on_death_resolved _ _ _ _ _ _ _ Hk) in H. injection H as <- <-.
    exists (Some (kid, kobj)). repeat split; try reflexivity.
    eexists. split; [reflexivity|]. split; [|discriminate].
    apply Forall_app. split.
    + eapply List.Forall_impl; [|apply multikill_events_types]. simpl. tauto.
    + eapply List.Forall_impl; [|apply shutdown_events_types]. simpl. tauto.
  - rewrite (on_death_unresolved _ _ _ _ _ Hk) in H. injection H as <- <-.
    exists None. repeat split; try reflexivity.
    exists []. repeat split. constructor.
  - rewrite (on_death_raise _ _ _ _ _ _ Hk) in H. discriminate.
Qed.

Lemma process_champion_cases self cd tk ts self' evs :
  process_champion self cd tk ts = Ok (self', evs) ->
  let cid := default "" (c_id cd) in
  let lvl := default 1%Z (c_level cd) in
  (dict_get cid (champion_states self) = None /\
   self' = set_champion_states self
             (champion_states self ++ [(cid, new_champion cid cd)]) /\
   evs = [])
  \/ (exists prev,
        dict_get cid (champion_states self) = Some prev /\
        death_edge self cd = false /\
        self' = settle cd prev self /\
        evs = level_events cid prev lvl tk ts)
  \/ (exists prev self1 dev,
        dict_get cid (champion_states self) = Some prev /\
        death_edge self cd = true /\
        on_champion_death self cid prev tk ts = Ok (self1, dev) /\
        self' = settle cd prev self1 /\
        evs = dev ++ level_events cid prev lvl tk ts).
Proof.
  intros H cid lvl. subst cid lvl.
  destruct (dict_get (default "" (c_id cd)) (champion_states self))
    as [prev|] eqn:Hget.
  - destruct (is_alive prev && negb (default true (c_is_alive cd))) eqn:He.
    + right; right.
      rewrite (process_champion_edge _ _ _ _ _ Hget He) in H.
      apply bind_Ok in H as ([s1 dev] & Hd & H). injection H as <- <-.
      exists prev, s1, dev. unfold death_edge. rewrite Hget. auto.
    + right; left.
      rewrite (process_champion_no_edge _ _ _ _ _ Hget He) in H.
      injection H as <- <-.
      exists prev. unfold death_edge. rewrite Hget. auto.
  - left. rewrite (process_champion_unseen _ _ _ _ Hget) in H.
    injection H as <- <-. auto.
Qed.

Lemma process_champion_events self cd tk ts self' evs :
  process_champion self cd tk ts = Ok (self', evs) ->
  Forall (fun e => champion_event e = true) evs /\
  team_alive_count self' = team_alive_count self /\
  match_started self' = match_started self.
Proof.
  intros H. apply process_champion_cases in H.
  destruct H as [(_ & -> & ->)|[(prev & _ & _ & -> & ->)
                               |(prev & s1 & dev & _ & _ & Hd & -> & ->)]].
  - repeat split. constructor.
  - rewrite settle_team_alive_count, settle_match_started. repeat split.
    eapply List.Forall_impl; [|apply level_events_types].
    unfold champion_event. intros e [-> | ->]; reflexivity.
  - rewrite settle_team_alive_count, settle_match_started.
    apply on_death_events in Hd
      as (killer & _ & _ & Htac & Hms & rest & -> & Hrest & _).
    repeat split; [|assumption|assumption].
    apply Forall_app. split.
    + constructor.
      * unfold champion_event, kill_event. simpl.
        now destruct (first_blood_occurred self).
      * eapply List.Forall_impl; [|exact Hrest].
        unfold champion_event. intros e [-> | [-> | [-> | ->]]]; reflexivity.
    + eapply List.Forall_impl; [|apply level_events_types].
      unfold champion_event. intros e [-> | ->]; reflexivity.
Qed.

Lemma process_champions_events champs : forall self tk ts self' evs,
  process_champions self champs tk ts = Ok (self', evs) ->
  Forall (fun e => champion_event e = true) evs /\
  team_alive_count self' = team_alive_count self /\
  match_started self' = match_started self.
Proof.
  induction champs as [|cd rest IH]; intros self tk ts self' evs; simpl.
  - intros [= <- <-]. repeat split. constructor.
  - intros H. apply bind_Ok in H as ([s1 ev1] & H1 & H).
    apply bind_Ok in H as ([s2 ev2] & H2 & H). simpl in *.
    injection H as <- <-.
    apply process_champion_events in H1 as (F1 & T1 & M1).
    apply IH in H2 as (F2 & T2 & M2).
    repeat split; [apply Forall_app; auto|congruence|congruence].
Qed.

(** *** [detect], block by block *)

Lemma detect_unfold self snap :
  detect self snap =
  let tk := default 0%Z (s_tick snap) in
  let ts := default 0%Q (s_match_time snap) in
  (r <- process_champions (started self snap)
          (default [] (s_champions snap)) tk ts ;;;
   Ok (set_previous_state (fst (check_ace (fst r) tk ts)) snap,
       start_events self snap tk ts ++ snd r ++ snd (check_ace (fst r) tk ts)
       ++ process_structures snap tk ts ++ end_events snap tk ts)).
Proof.
  unfold detect, started, start_events, end_events. simpl.
  destruct (negb (match_started self) && status_is snap "playing");
    (destruct (process_champions _ _ _ _) as [[s2 evc]|e]; simpl;
      [|reflexivity]);
    destruct (check_ace s2 (default 0%Z (s_tick snap))
                (default 0%Q (s_match_time snap))) as [s3 eva];
    reflexivity.
Qed.

Lemma detect_inv self snap self' evs :
  detect self snap = Ok (self', evs) ->
  let tk := default 0%Z (s_tick snap) in
  let ts := default 0%Q (s_match_time snap) in
  exists self2 evc,
    process_champions (started self snap) (default [] (s_champions snap)) tk ts
      = Ok (self2, evc) /\
    self' = set_previous_state (fst (check_ace self2 tk ts)) snap /\
    evs = start_events self snap tk ts ++ evc ++ snd (check_ace self2 tk ts)
          ++ process_structures snap tk ts ++ end_events snap tk ts.
Proof.
  rewrite detect_unfold. simpl. intros H.
  apply bind_Ok in H as ([s2 evc] & Hp & H). simpl in H.
  injection H as <- <-. exists s2, evc. auto.
Qed.

Lemma check_ace_unfold self tk ts :
  check_ace self tk ts =
  check_ace_team "red" tk ts (check_ace_team "blue" tk ts (self, [])).
Proof. reflexivity. Qed.

(** Every snapshot with status "ended" gets a MATCH_END event. *)
Lemma match_end_level_triggered self snap self' evs :
  status_is snap "ended" = true ->
  detect self snap = Ok (self', evs) ->
  of_type MATCH_END evs =
  [ mkEvent MATCH_END (default 0%Q (s_match_time snap))
      (default 0%Z (s_tick snap))
      [("winner", opt_str (s_winner snap));
       ("duration", VNum (default 0%Q (s_match_time snap)))] ].
Proof.
  intros Hs H. apply detect_inv in H as (s2 & evc & Hp & _ & ->).
  apply process_champions_events in Hp as (Hc & _ & _).
  rewrite !of_type_app.
  assert (He1 : of_type MATCH_END
                  (start_events self snap (default 0%Z (s_tick snap))
                     (default 0%Q (s_match_time snap))) = []).
  { unfold start_events. now destruct (_ && _). }
  assert (He2 : of_type MATCH_END evc = []).
  { apply filter_nil_Forall. eapply List.Forall_impl; [|exact Hc].
    intros e He. apply bool_decide_eq_false. intros Heq.
    unfold champion_event in He. rewrite Heq in He. discriminate. }
  assert (He3 : forall tk ts, of_type MATCH_END (snd (check_ace s2 tk ts)) = []).
  { intros tk ts. rewrite check_ace_unfold. unfold check_ace_team. simpl.
    repeat (destruct (_ && _); simpl); reflexivity. }
  assert (He4 : forall tk ts, of_type MATCH_END (process_structures snap tk ts) = []).
  { intros tk ts. unfold process_structures, nexus_events.
    repeat (destruct (_ && _); simpl); reflexivity. }
  rewrite He1, He2, He3, He4. unfold end_events. rewrite Hs. reflexivity.
Qed.

(** Events of the three late blocks of [detect] come from those blocks
    only: neither the match-start block nor a champion produces them. *)
Lemma detect_late_events self snap self' evs :
  detect self snap = Ok (self', evs) ->
  let tk := default 0%Z (s_tick snap) in
  let ts := default 0%Q (s_match_time snap) in
  exists self2 evc,
    process_champions (started self snap) (default [] (s_champions snap)) tk ts
      = Ok (self2, evc) /\
    self' = set_previous_state (fst (check_ace self2 tk ts)) snap /\
    forall T, T = ACE \/ T = NEXUS_LOW \/ T = MATCH_END ->
      of_type T evs =
      of_type T (snd (check_ace self2 tk ts)) ++
      of_type T (process_structures snap tk ts) ++
      of_type T (end_events snap tk ts).
Proof.
  intros H tk ts. apply detect_inv in H as (s2 & evc & Hp & -> & ->).
  exists s2, evc. split; [exact Hp|]. split; [reflexivity|].
  intros T HT. fold tk ts.
  apply process_champions_events in Hp as (Hc & _ & _).
  rewrite !of_type_app.
  assert (He1 : of_type T (start_events self snap tk ts) = []).
  { unfold start_events. destruct (_ && _); [|reflexivity].
    destruct HT as [-> | [-> | ->]]; reflexivity. }
  assert (He2 : of_type T evc = []).
  { apply filter_nil_Forall. eapply List.Forall_impl; [|exact Hc].
    intros e He. apply bool_decide_eq_false. intros Heq.
    unfold champion_event in He. rewrite Heq in He.
    destruct HT as [-> | [-> | ->]]; discriminate. }
  now rewrite He1, He2.
Qed.

(** [_check_ace] in closed form: both counts are stored, and each team
    contributes its ACE event or nothing. *)
Lemma check_ace_spec self tk ts :
  let ace t :=
    if Nat.ltb 0 (default 0 (dict_get t (team_alive_count self)))
       && Nat.eqb (alive_count (champion_states self) t) 0
    then [ mkEvent ACE ts tk
             [("aced_team", VStr t); ("by_team", VStr (enemy_of t))] ]
    else [] in
  check_ace self tk ts =
  (set_team_alive_count self
     (dict_set "red" (alive_count (champion_states self) "red")
        (dict_set "blue" (alive_count (champion_states self) "blue")
           (team_alive_count self))),
   ace "blue" ++ ace "red").
Proof.
  simpl. rewrite check_ace_unfold. unfold check_ace_team. simpl.
  rewrite dict_get_set_ne by discriminate.
  destruct (Nat.ltb 0 (default 0 (dict_get "blue" _)) && _);
    destruct (Nat.ltb 0 (default 0 (dict_get "red" _)) && _); reflexivity.
Qed.

Lemma started_team_alive_count self snap :
  team_alive_count (started self snap) = team_alive_count self.
Proof. unfold started. now destruct (_ && _). Qed.

Lemma started_flag self snap :
  first_blood_occurred (started self snap) = first_blood_occurred self.
Proof. unfold started. now destruct (_ && _). Qed.

Lemma started_champion_states self snap :
  champion_states (started self snap) = champion_states self.
Proof. unfold started. now destruct (_ && _). Qed.

(** *** Kill events along a run *)

Lemma kill_types_app l1 l2 : kill_types (l1 ++ l2) = kill_types l1 ++ kill_types l2.
Proof. unfold kill_types. now rewrite List.filter_app, map_app. Qed.

Lemma kill_types_none (P : GameEvent -> Prop) evs :
  (forall e, P e -> is_kill e = false) -> Forall P evs -> kill_types evs = [].
Proof.
  intros HP H. unfold kill_types. rewrite filter_nil_Forall; [reflexivity|].
  eapply List.Forall_impl; [|exact H]. exact HP.
Qed.

Lemma announced_true n : announced true n = repeat CHAMPION_KILL n.
Proof. now destruct n. Qed.

Lemma announced_app flag n m :
  announced flag n ++ announced (flag || Nat.ltb 0 n) m = announced flag (n + m).
Proof.
  destruct n as [|n]; simpl.
  - now rewrite orb_false_r.
  - rewrite orb_true_r, announced_true, repeat_app. reflexivity.
Qed.

Lemma process_champion_kills self cd tk ts self' evs :
  process_champion self cd tk ts = Ok (self', evs) ->
  kill_types evs
  = announced (first_blood_occurred self) (if death_edge self cd then 1 else 0)
  /\ first_blood_occurred self'
     = first_blood_occurred self || death_edge self cd.
Proof.
  intros H. apply process_champion_cases in H.
  assert (Hlvl : forall cid prev lvl,
            kill_types (level_events cid prev lvl tk ts) = []).
  { intros. eapply kill_types_none; [|apply level_events_types].
    unfold is_kill. intros e [-> | ->]; reflexivity. }
  destruct H as [(Hget & -> & ->)|[(prev & _ & He & -> & ->)
                                  |(prev & s1 & dev & _ & He & Hd & -> & ->)]].
  - unfold death_edge. rewrite Hget. simpl. now rewrite orb_false_r.
  - rewrite He, Hlvl, settle_flag. simpl. now rewrite orb_false_r.
  - rewrite He, settle_flag, kill_types_app, Hlvl, app_nil_r.
    apply on_death_events in Hd
      as (killer & _ & Hflag & _ & _ & rest & -> & Hrest & _).
    rewrite Hflag, orb_true_r. split; [|reflexivity].
    change (kill_event self prev killer tk ts :: rest)
      with ([kill_event self prev killer tk ts] ++ rest).
    rewrite kill_types_app.
    assert (Hr : kill_types rest = []).
    { eapply kill_types_none; [|exact Hrest].
      unfold is_kill. intros e [-> | [-> | [-> | ->]]]; reflexivity. }
    rewrite Hr. unfold kill_types, kill_event, is_kill. simpl.
    now destruct (first_blood_occurred self).
Qed.

Lemma process_champions_kills champs : forall self tk ts self' evs,
  process_champions self champs tk ts = Ok (self', evs) ->
  kill_types evs
  = announced (first_blood_occurred self) (edges_in_champions self champs tk ts)
  /\ first_blood_occurred self'
     = first_blood_occurred self
       || Nat.ltb 0 (edges_in_champions self champs tk ts).
Proof.
  induction champs as [|cd rest IH]; intros self tk ts self' evs; simpl.
  - intros [= <- <-]. now rewrite orb_false_r.
  - intros H. apply bind_Ok in H as ([s1 ev1] & H1 & H).
    apply bind_Ok in H as ([s2 ev2] & H2 & H). simpl in *.
    injection H as <- <-. rewrite H1.
    apply process_champion_kills in H1 as (K1 & F1).
    apply IH in H2 as (K2 & F2).
    rewrite kill_types_app, K1, K2, F2, F1.
    set (n := edges_in_champions s1 rest tk ts).
    destruct (death_edge self cd); simpl.
    + rewrite orb_true_r, announced_true. simpl. split; [reflexivity|].
      now rewrite orb_true_r.
    + rewrite !orb_false_r. auto.
Qed.

Lemma detect_kills self snap self' evs :
  detect self snap = Ok (self', evs) ->
  kill_types evs
  = announced (first_blood_occurred self) (edges_in_call self snap)
  /\ first_blood_occurred self'
     = first_blood_occurred self || Nat.ltb 0 (edges_in_call self snap).
Proof.
  intros H. apply detect_inv in H as (s2 & evc & Hp & -> & ->).
  apply process_champions_kills in Hp as (K & F).
  rewrite started_flag in K, F. unfold edges_in_call.
  set (tk := default 0%Z (s_tick snap)) in *.
  set (ts := default 0%Q (s_match_time snap)) in *.
  pose proof (check_ace_spec s2 tk ts) as Hca. cbv zeta in Hca. rewrite Hca.
  cbn [fst snd first_blood_occurred set_previous_state set_team_alive_count].
  split; [|exact F].
  rewrite !kill_types_app, K.
  assert (E1 : kill_types (start_events self snap tk ts) = []).
  { unfold start_events. now destruct (_ && _). }
  assert (E2 : forall t,
            kill_types
              (if Nat.ltb 0 (default 0 (dict_get t (team_alive_count s2)))
                  && Nat.eqb (alive_count (champion_states s2) t) 0
               then [ mkEvent ACE ts tk
                        [("aced_team", VStr t); ("by_team", VStr (enemy_of t))] ]
               else []) = []).
  { intros t. now destruct (_ && _). }
  assert (E3 : kill_types (process_structures snap tk ts) = []).
  { unfold process_structures, nexus_events.
    repeat (destruct (_ && _); simpl); reflexivity. }
  assert (E4 : kill_types (end_events snap tk ts) = []).
  { unfold end_events. now destruct (status_is _ _). }
  now rewrite E1, !E2, E3, E4, !app_nil_r.
Qed.

Lemma run_kills snaps : forall self self' evss,
  run self snaps = Ok (self', evss) ->
  kill_types (concat evss)
  = announced (first_blood_occurred self) (edges_in_run self snaps)
  /\ first_blood_occurred self'
     = first_blood_occurred self || Nat.ltb 0 (edges_in_run self snaps).
Proof.
  induction snaps as [|snap rest IH]; intros self self' evss; simpl.
  - intros [= <- <-]. now rewrite orb_false_r.
  - intros H. apply bind_Ok in H as ([s1 ev1] & H1 & H).
    apply bind_Ok in H as ([s2 ev2] & H2 & H). simpl in *.
    injection H as <- <-. rewrite H1.
    apply detect_kills in H1 as (K1 & F1). apply IH in H2 as (K2 & F2).
    simpl. rewrite kill_types_app, K1, K2, F2, F1, announced_app.
    split; [reflexivity|].
    destruct (edges_in_call self snap), (edges_in_run s1 rest); simpl;
      now rewrite ?orb_false_r, ?orb_true_r.
Qed.

(** *** Attributes that [settle] keeps *)

Lemma refresh_keeps_streak h mh lvl a pos c :
  kill_streak (refresh h mh lvl a pos c) = kill_streak c.
Proof. reflexivity. Qed.

Lemma refresh_keeps_window h mh lvl a pos c :
  recent_kills (refresh h mh lvl a pos c) = recent_kills c.
Proof. reflexivity. Qed.


Lemma of_type_none T (P : GameEvent -> Prop) evs :
  (forall e, P e -> event_type e <> T) -> Forall P evs -> of_type T evs = [].
Proof.
  intros HP H. apply filter_nil_Forall.
  eapply List.Forall_impl; [|exact H].
  intros e He. apply bool_decide_eq_false. now apply HP.
Qed.


(** *** The recent-kill window *)









(** *** Totality on complete positions *)

Lemma Forall_values_alter {V} (P : V -> Prop) f k (d : list (string * V)) :
  (forall v, P v -> P (f v)) ->
  Forall P (dict_values d) -> Forall P (dict_values (dict_alter f k d)).
Proof.
  intros Hf. induction d as [|[k0 v0] d IH]; simpl; [auto|].
  intros H. apply Forall_cons in H as [H0 H].
  destruct (String.eqb k0 k); simpl; constructor; auto.
Qed.











Lemma dict_get_alter_Some {V} (f : V -> V) k k' (d : list (string * V)) v :
  dict_get k' d = Some v -> exists v', dict_get k' (dict_alter f k d) = Some v'.
Proof.
  intros H. rewrite dict_get_alter, H. destruct (String.eqb k k'); simpl; eauto.
Qed.

Lemma on_death_keeps_keys self vid victim tk ts self' evs k c :
  on_champion_death self vid victim tk ts = Ok (self', evs) ->
  dict_get k (champion_states self) = Some c ->
  exists c', dict_get k (champion_states self') = Some c'.
Proof.
  intros H Hget.
  destruct (find_likely_killer self victim) as [[[kid kobj]|]|e] eqn:Hk.
  - rewrite (on_death_resolved _ _ _ _ _ _ _ Hk) in H. injection H as <- _.
    simpl. eapply dict_get_alter_Some; eauto.
  - rewrite (on_death_unresolved _ _ _ _ _ Hk) in H. injection H as <- _.
    simpl. eauto.
  - rewrite (on_death_raise _ _ _ _ _ _ Hk) in H. discriminate.
Qed.

(** After [settle] the stored fields are the reported ones, or their
    defaults. *)
Lemma settle_refreshes cd prev self1 c1 :
  dict_get (default "" (c_id cd)) (champion_states self1) = Some c1 ->
  exists c',
    dict_get (default "" (c_id cd)) (champion_states (settle cd prev self1))
    = Some c' /\
    health c' = default 0%Q (c_health cd) /\
    max_health c' = default 600%Q (c_max_health cd) /\
    level c' = default 1%Z (c_level cd) /\
    is_alive c' = default true (c_is_alive cd) /\
    position c' = default origin (c_position cd).
Proof.
  intros Hget. unfold settle.
  destruct (negb (is_alive prev) && _); simpl;
    rewrite !dict_get_alter, !String.eqb_refl, Hget; simpl;
    eexists; (split; [reflexivity|]); repeat split.
Qed.

(** *** The tracked state is a dictionary: its keys stay distinct *)

Lemma on_death_keys self vid victim tk ts self' evs :
  on_champion_death self vid victim tk ts = Ok (self', evs) ->
  dict_keys (champion_states self') = dict_keys (champion_states self).
Proof.
  intros H.
  destruct (find_likely_killer self victim) as [[[kid kobj]|]|e] eqn:Hk.
  - rewrite (on_death_resolved _ _ _ _ _ _ _ Hk) in H. injection H as <- _.
    simpl. apply dict_keys_alter.
  - rewrite (on_death_unresolved _ _ _ _ _ Hk) in H. now injection H as <- _.
  - rewrite (on_death_raise _ _ _ _ _ _ Hk) in H. discriminate.
Qed.

Lemma settle_keys cd prev self1 :
  dict_keys (champion_states (settle cd prev self1))
  = dict_keys (champion_states self1).
Proof.
  unfold settle. destruct (negb (is_alive prev) && _); simpl;
    now rewrite !dict_keys_alter.
Qed.

Lemma process_champion_keys self cd tk ts self' evs :
  NoDup (dict_keys (champion_states self)) ->
  process_champion self cd tk ts = Ok (self', evs) ->
  NoDup (dict_keys (champion_states self')).
Proof.
  intros Hnd H. apply process_champion_cases in H.
  destruct H as [(Hget & -> & _)|[(prev & _ & _ & -> & _)
                                 |(prev & s1 & dev & _ & _ & Hd & -> & _)]].
  - simpl. unfold dict_keys. rewrite map_app. simpl.
    apply NoDup_app. split; [exact Hnd|]. split.
    + intros x Hx Hx'. apply list_elem_of_In in Hx'.
      destruct Hx' as [<- | []].
      apply dict_get_None in Hget. apply Hget. now apply list_elem_of_In.
    + apply NoDup_singleton.
  - now rewrite settle_keys.
  - rewrite settle_keys, (on_death_keys _ _ _ _ _ _ _ Hd). exact Hnd.
Qed.

Lemma process_champions_keys champs : forall self tk ts self' evs,
  NoDup (dict_keys (champion_states self)) ->
  process_champions self champs tk ts = Ok (self', evs) ->
  NoDup (dict_keys (champion_states self')).
Proof.
  induction champs as [|cd rest IH]; intros self tk ts self' evs Hnd; simpl.
  - now intros [= <- _].
  - intros H. apply bind_Ok in H as ([s1 ev1] & H1 & H).
    apply bind_Ok in H as ([s2 ev2] & H2 & H). simpl in *.
    injection H as <- _.
    eapply IH; [|exact H2]. eapply process_champion_keys; eauto.
Qed.

Lemma detect_keys self snap self' evs :
  NoDup (dict_keys (champion_states self)) ->
  detect self snap = Ok (self', evs) ->
  NoDup (dict_keys (champion_states self')).
Proof.
  intros Hnd H. apply detect_inv in H as (s2 & evc & Hp & -> & _).
  pose proof (check_ace_spec s2 (default 0%Z (s_tick snap))
                (default 0%Q (s_match_time snap))) as Hca.
  cbv zeta in Hca. rewrite Hca. simpl.
  eapply process_champions_keys; [|exact Hp].
  now rewrite started_champion_states.
Qed.

Lemma run_keys snaps : forall self self' evss,
  NoDup (dict_keys (champion_states self)) ->
  run self snaps = Ok (self', evss) ->
  NoDup (dict_keys (champion_states self')).
Proof.
  induction snaps as [|snap rest IH]; intros self self' evss Hnd; simpl.
  - now intros [= <- _].
  - intros H. apply bind_Ok in H as ([s1 ev1] & H1 & H).
    apply bind_Ok in H as ([s2 ev2] & H2 & H). simpl in *.
    injection H as <- _.
    eapply IH; [|exact H2]. eapply detect_keys; eauto.
Qed.

(** Every detector reached from a fresh one has distinct keys. *)
Lemma reachable_keys snaps self evss :
  run init snaps = Ok (self, evss) ->
  NoDup (dict_keys (champion_states self)).
Proof. apply run_keys. constructor. Qed.

End DetectorFacts.

(* ===================================================================== *)
(** ** Properties of the event detector                                   *)
(* ===================================================================== *)

Module DetectorSpec.
Import Detector Observe PyFacts DetectorFacts Scenario.

(** C1 (the code departs from the claim).  MATCH_END is meant to fire on
    the transition to status "ended" only.  [detect] tests the status of
    the current snapshot alone, so a feed that keeps reporting the final
    state gets MATCH_END on every such snapshot: here on tick 2, where
    the status changes, and again on tick 3, where it does not. *)
Theorem match_end_repeats_while_ended :
  exists self,
    run init ended_twice =
    Ok (self,
        [ [ mkEvent MATCH_START 0 1 [] ];
          [ mkEvent MATCH_END 600 2
              [("winner", VStr "blue"); ("duration", VNum 600)] ];
          [ mkEvent MATCH_END 601 3
              [("winner", VStr "blue"); ("duration", VNum 601)] ] ]).
Proof. eexists. vm_compute. reflexivity. Qed.



(** C5.  For each team, a call of [detect] emits ACE exactly when the
    team's stored alive count was positive on entry (the count left by
    the previous call) and the team has no alive tracked champion now:
    one event naming the wiped team and its opponent.  The stored count
    is overwritten with the current one on every call, so after a wipe
    it is 0 and ACE cannot fire again before the count has been positive
    at the end of some call. *)
Theorem ace_on_wipe_transition self snap self' evs t :
  detect self snap = Ok (self', evs) ->
  t = "blue" \/ t = "red" ->
  let tk := default 0%Z (s_tick snap) in
  let ts := default 0%Q (s_match_time snap) in
  let prev_alive := default 0 (dict_get t (team_alive_count self)) in
  let alive := alive_count (champion_states self') t in
  (0 < prev_alive -> alive = 0 ->
     ace_for t evs =
     [ mkEvent ACE ts tk
         [("aced_team", VStr t); ("by_team", VStr (enemy_of t))] ]) /\
  (prev_alive = 0 \/ 0 < alive -> ace_for t evs = []) /\
  dict_get t (team_alive_count self') = Some alive.
Proof.
  intros H Ht tk ts prev_alive alive. subst tk ts prev_alive alive.
  apply detect_late_events in H as (s2 & evc & Hp & -> & Hev).
  set (tk := default 0%Z (s_tick snap)) in *.
  set (ts := default 0%Q (s_match_time snap)) in *.
  unfold ace_for. rewrite (Hev ACE) by auto.
  assert (Hstruct : of_type ACE (process_structures snap tk ts) = []).
  { unfold process_structures, nexus_events.
    repeat (destruct (_ && _); simpl); reflexivity. }
  assert (Hend : of_type ACE (end_events snap tk ts) = []).
  { unfold end_events. now destruct (status_is _ _). }
  rewrite Hstruct, Hend, !app_nil_r.
  apply process_champions_events in Hp as (_ & Htac & _).
  rewrite started_team_alive_count in Htac.
  pose proof (check_ace_spec s2 tk ts) as Hca. cbv zeta in Hca.
  rewrite Hca. clear Hca.
  cbn [fst snd champion_states team_alive_count set_previous_state
       set_team_alive_count].
  rewrite Htac.
  set (cs := champion_states s2). set (tac := team_alive_count self).
  rewrite of_type_app, List.filter_app.
  assert (Hcell : forall t' : string,
            List.filter (about_team "aced_team" t)
              (of_type ACE
                 (if Nat.ltb 0 (default 0 (dict_get t' tac))
                     && Nat.eqb (alive_count cs t') 0
                  then [ mkEvent ACE ts tk
                           [("aced_team", VStr t');
                            ("by_team", VStr (enemy_of t'))] ]
                  else []))
            = if String.eqb t' t
              then (if Nat.ltb 0 (default 0 (dict_get t tac))
                       && Nat.eqb (alive_count cs t) 0
                    then [ mkEvent ACE ts tk
                             [("aced_team", VStr t);
                              ("by_team", VStr (enemy_of t))] ]
                    else [])
              else []).
  { intros t'. destruct (String.eqb_spec t' t) as [->|Hne].
    - destruct (_ && _); [|reflexivity]. simpl. unfold about_team. simpl.
      now rewrite String.eqb_refl.
    - destruct (_ && _); [|reflexivity]. simpl. unfold about_team. simpl.
      destruct (String.eqb_spec t' t); [congruence|reflexivity]. }
  rewrite !Hcell.
  assert (Hstored :
            dict_get t (dict_set "red" (alive_count cs "red")
                          (dict_set "blue" (alive_count cs "blue") tac))
            = Some (alive_count cs t)).
  { destruct Ht as [-> | ->].
    - rewrite dict_get_set_ne by discriminate. apply dict_get_set_eq.
    - apply dict_get_set_eq. }
  split; [|split; [|exact Hstored]].
  - intros Hprev Hnow. apply Nat.ltb_lt in Hprev. rewrite Hprev, Hnow. simpl.
    destruct Ht as [-> | ->]; reflexivity.
  - intros Hno.
    assert (Hc : Nat.ltb 0 (default 0 (dict_get t tac))
                 && Nat.eqb (alive_count cs t) 0 = false).
    { destruct Hno as [Hz | Hpos].
      - rewrite Hz. reflexivity.
      - apply andb_false_iff. right. apply Nat.eqb_neq. lia. }
    rewrite Hc. destruct Ht as [-> | ->]; reflexivity.
Qed.

Lemma ace_on_wipe_transition_witness :
  exists self' evs,
    detect (state_after [duel_opening]) duel_first_death = Ok (self', evs) /\
    ace_for "blue" evs =
    [ mkEvent ACE 10 2 [("aced_team", VStr "blue"); ("by_team", VStr "red")] ] /\
    dict_get "blue" (team_alive_count self') = Some 0.
Proof.
  eexists _, _. split.
  - vm_compute. reflexivity.
  - pose proof (ace_on_wipe_transition (state_after [duel_opening])
                  duel_first_death _ _ "blue"
                  ltac:(vm_compute; reflexivity) (or_introl eq_refl))
      as (Hfire & _ & Hstore).
    split.
    + apply Hfire; vm_compute; [lia|reflexivity].
    + exact Hstore.
Defined.


(** C3.  Along every run of snapshots through one detector, each death
    edge gets exactly one kill event, and the kill events read, in
    order, FIRST_BLOOD once and CHAMPION_KILL ever after: FIRST_BLOOD is
    the event of the first death edge met while the flag is unset, the
    flag is set by that emission and by nothing else, and once set it
    stays set. *)
Theorem first_blood_exactly_once self snaps self' evss :
  run self snaps = Ok (self', evss) ->
  let ks := kill_types (concat evss) in
  length ks = edges_in_run self snaps /\
  (first_blood_occurred self = false ->
     (ks = [] /\ first_blood_occurred self' = false) \/
     (exists n, ks = FIRST_BLOOD :: repeat CHAMPION_KILL n /\
                first_blood_occurred self' = true)) /\
  (first_blood_occurred self = true ->
     ks = repeat CHAMPION_KILL (length ks) /\
     first_blood_occurred self' = true).
Proof.
  intros H ks. subst ks. apply run_kills in H as (K & F).
  rewrite K, F. set (n := edges_in_run self snaps).
  split; [|split].
  - destruct n; simpl; [reflexivity|]. now rewrite repeat_length.
  - intros ->. destruct n as [|n]; simpl; [left; auto|right; eauto].
  - intros ->. rewrite announced_true, repeat_length. auto.
Qed.

Lemma first_blood_exactly_once_witness :
  exists self' evss,
    run init duel = Ok (self', evss) /\
    (let ks := kill_types (concat evss) in
     length ks = edges_in_run init duel /\
     (first_blood_occurred init = false ->
        (ks = [] /\ first_blood_occurred self' = false) \/
        (exists n, ks = FIRST_BLOOD :: repeat CHAMPION_KILL n /\
                   first_blood_occurred self' = true)) /\
     (first_blood_occurred init = true ->
        ks = repeat CHAMPION_KILL (length ks) /\
        first_blood_occurred self' = true)).
Proof.
  eexists _, _. split.
  - vm_compute. reflexivity.
  - apply (first_blood_exactly_once init duel). vm_compute. reflexivity.
Defined.










End DetectorSpec.

(* ===================================================================== *)
(** ** Properties of template rendering                                   *)
(* ===================================================================== *)

Module CommentarySpec.
Import Detector Commentary Observe PyFacts Scenario.

Section Rendering.
Variable float_str : Q -> string.
Variable float_fixed0 : Q -> string.

Lemma format_value_plain v : format_value float_str float_fixed0 v "" = Ok (str float_str v).
Proof. reflexivity. Qed.

(** On such pieces, a payload that lacks a referenced field makes
    [render] raise KeyError, whatever else the payload holds. *)
Lemma render_key_error data ps :
  key_error_first ps = true ->
  (exists name, In name (field_names ps) /\ dict_get name data = None) ->
  exists k, render float_str float_fixed0 data ps = Raise (KeyError k).
Proof.
  induction ps as [|p rest IH]; simpl; intros Hok (name & Hin & Hnone).
  - contradiction.
  - destruct p as [c|fname spec|].
    + destruct (IH Hok (ex_intro _ name (conj Hin Hnone))) as (k & ->).
      simpl. eauto.
    + apply andb_true_iff in Hok as [Hpos Hrest].
      apply negb_true_iff in Hpos. rewrite Hpos.
      destruct (dict_get fname data) as [v|] eqn:Hf; [|eauto].
      assert (Hin' : In name (field_names rest)).
      { destruct Hin as [<- | Hin]; [congruence|exact Hin]. }
      destruct (String.eqb_spec spec "") as [->|Hspec].
      * rewrite format_value_plain. simpl.
        destruct (IH Hrest (ex_intro _ name (conj Hin' Hnone))) as (k & ->).
        simpl. eauto.
      * destruct (field_names rest); [contradiction|discriminate].
    + discriminate.
Qed.

Lemma templates_key_error_first t templates :
  TEMPLATES t = Some templates ->
  Forall (fun s => key_error_first (parse_template Outside s) = true) templates.
Proof.
  destruct t; intros [= <-]; repeat constructor.
Qed.

Lemma random_choice_In draw t rest :
  In (random_choice draw (t :: rest)) (t :: rest).
Proof.
  unfold random_choice. apply nth_In.
  apply Nat.mod_upper_bound. discriminate.
Qed.

(** C9.  The fast path degrades instead of failing.  If the template
    drawn for an event refers to a field that the payload lacks,
    [generate_template] returns that template, unmodified, placeholders
    intact; if the event type has no template set it returns None.  In
    neither case does it raise. *)
Theorem template_rendering_degrades draw event :
  (forall templates,
     TEMPLATES (event_type event) = Some templates ->
     let template := random_choice draw templates in
     (exists name, In name (fields_of template) /\
                   dict_get name (data event) = None) ->
     generate_template float_str float_fixed0 draw event = Ok (Some template))
  /\
  (TEMPLATES (event_type event) = None ->
   generate_template float_str float_fixed0 draw event = Ok None).
Proof.
  split.
  - intros templates HT template Habsent. subst template.
    unfold generate_template. rewrite HT.
    destruct templates as [|t rest].
    { destruct Habsent as (name & Hin & _). destruct draw; contradiction. }
    pose proof (templates_key_error_first _ _ HT) as Hall.
    rewrite List.Forall_forall in Hall.
    specialize (Hall _ (random_choice_In draw t rest)).
    destruct (render_key_error (data event) _ Hall Habsent) as (k & Hk).
    unfold format. now rewrite Hk.
  - intros HT. unfold generate_template. now rewrite HT.
Qed.

End Rendering.

Lemma template_rendering_degrades_witness :
  generate_template (fun _ => "0.0") (fun _ => "0") 0 nameless_first_blood
  = Ok (Some "{killer} draws first blood on {victim}!") /\
  generate_template (fun _ => "0.0") (fun _ => "0") 0 big_play = Ok None.
Proof.
  split.
  - apply (proj1 (template_rendering_degrades (fun _ => "0.0") (fun _ => "0")
                    0 nameless_first_blood) _ eq_refl).
    exists "victim". split; [vm_compute; tauto|reflexivity].
  - apply (proj2 (template_rendering_degrades (fun _ => "0.0") (fun _ => "0")
                    0 big_play)).
    reflexivity.
Defined.

End CommentarySpec.

(* ===================================================================== *)
(** ** Properties of the spectator fan-out                                *)
(* ===================================================================== *)

Module BroadcasterSpec.
Import Broadcaster Scenario.

Section FanOut.
Variable closed : conn -> bool.
Variable m : Message.

(** The pass in closed form: the failures are collected, and the log
    holds one attempt per member visited, in order. *)
Lemma fan_out_fold (l : list conn) : forall disconnected log,
  fold_left (fan_out_step closed m) l (disconnected, log)
  = (list_to_set (List.filter closed l) ∪ disconnected,
     log ++ map (fun ws => (ws, send closed ws m)) l).
Proof.
  induction l as [|ws rest IH]; intros D log; simpl.
  - rewrite app_nil_r. f_equal. now rewrite union_empty_l_L.
  - unfold send at 1. destruct (closed ws) eqn:E; rewrite IH.
    + unfold send at 2. rewrite E. rewrite <- app_assoc. simpl.
      f_equal. rewrite (comm_L (∪) {[ws]} (list_to_set _)).
      now rewrite (assoc_L (∪)).
    + unfold send at 2. rewrite E. rewrite <- app_assoc. reflexivity.
Qed.

Lemma attempts_members (l : list conn) :
  map fst (map (fun ws => (ws, send closed ws m)) l) = l.
Proof. rewrite map_map. simpl. apply map_id. Qed.

Lemma delivered_open (l : list conn) :
  List.filter delivered (map (fun ws => (ws, send closed ws m)) l)
  = map (fun ws => (ws, Delivered m))
        (List.filter (fun ws => negb (closed ws)) l).
Proof.
  induction l as [|ws rest IH]; [reflexivity|].
  cbn [map List.filter]. rewrite IH.
  unfold delivered, send. cbn [snd].
  destruct (closed ws); reflexivity.
Qed.

(** Among members without repetition of whom only [c0] is closed, the
    closed ones are [c0] alone. *)
Lemma only_closed (l : list conn) c0 :
  NoDup l -> c0 ∈ l -> closed c0 = true ->
  (forall c, c ∈ l -> c <> c0 -> closed c = false) ->
  length (List.filter (fun ws => negb (closed ws)) l) = length l - 1.
Proof.
  induction l as [|x l IH]; intros Hnd Hin Hc0 Hothers.
  - now apply elem_of_nil in Hin.
  - apply NoDup_cons in Hnd as [Hx Hnd]. simpl.
    destruct (decide (x = c0)) as [->|Hne].
    + rewrite Hc0. simpl. rewrite Nat.sub_0_r.
      rewrite List.forallb_filter_id; [reflexivity|].
      apply forallb_forall. intros y Hy. apply list_elem_of_In in Hy.
      rewrite (Hothers y); [reflexivity|now right|].
      intros ->. contradiction.
    + rewrite (Hothers x); [|now left|assumption]. simpl.
      apply elem_of_cons in Hin as [->|Hin]; [congruence|].
      rewrite IH; try assumption.
      * destruct l; [now apply elem_of_nil in Hin|simpl; lia].
      * intros c Hc. apply Hothers. now right.
Qed.

Lemma all_open (l : list conn) :
  (forall c, c ∈ l -> closed c = false) ->
  List.filter closed l = [] /\
  List.filter (fun ws => negb (closed ws)) l = l.
Proof.
  induction l as [|x l IH]; intros H; simpl; [auto|].
  rewrite (H x) by now left. simpl.
  destruct IH as [-> ->]; [intros c Hc; apply H; now right|auto].
Qed.

End FanOut.

Lemma broadcast_closed_form closed spectators text kind now :
  let message := mkMessage "commentary" text kind now in
  broadcast_commentary closed spectators text kind now
  = (spectators ∖ list_to_set (List.filter closed (elements spectators)),
     map (fun ws => (ws, send closed ws message)) (elements spectators)).
Proof.
  unfold broadcast_commentary. cbv zeta. rewrite fan_out_fold.
  now rewrite union_empty_r_L.
Qed.

(** C7.  A broadcast to a set of members of whom exactly one, [c0], has
    a closed connection attempts one send per member, in one pass over
    the whole set; every other member is delivered the message, which
    makes N-1 deliveries; [c0] is removed from the set the call leaves,
    and it is removed only there: the pass itself ran over the set as it
    was.  The next broadcast attempts exactly the N-1 remaining members,
    delivers to all of them and removes nobody. *)
Theorem broadcast_prunes_after_fan_out closed spectators c0
    text kind now text' kind' now' spectators1 log1 spectators2 log2 :
  c0 ∈ spectators ->
  closed c0 = true ->
  (forall c, c ∈ spectators -> c <> c0 -> closed c = false) ->
  broadcast_commentary closed spectators text kind now = (spectators1, log1) ->
  broadcast_commentary closed spectators1 text' kind' now' = (spectators2, log2) ->
  map fst log1 = elements spectators /\
  length (List.filter delivered log1) = size spectators - 1 /\
  (forall c, c ∈ spectators -> c <> c0 ->
     In (c, Delivered (mkMessage "commentary" text kind now)) log1) /\
  In (c0, ConnectionClosed) log1 /\
  spectators1 = spectators ∖ {[ c0 ]} /\
  map fst log2 = elements spectators1 /\
  length log2 = size spectators - 1 /\
  List.filter delivered log2 = log2 /\
  spectators2 = spectators1.
Proof.
  intros Hin Hc0 Hothers H1 H2.
  rewrite broadcast_closed_form in H1. cbv zeta in H1. injection H1 as <- <-.
  assert (Hset : spectators ∖ list_to_set (List.filter closed (elements spectators))
                 = spectators ∖ {[ c0 ]}).
  { apply set_eq. intros x.
    rewrite !elem_of_difference, elem_of_list_to_set, list_elem_of_In,
      filter_In, <- list_elem_of_In, elem_of_elements, elem_of_singleton.
    split; intros [Hx Hn]; (split; [exact Hx|]).
    - intros ->. apply Hn. auto.
    - intros [_ Hcl]. destruct (decide (x = c0)) as [->|Hne]; [auto|].
      rewrite (Hothers x Hx Hne) in Hcl. discriminate. }
  rewrite Hset in *.
  rewrite broadcast_closed_form in H2. cbv zeta in H2. injection H2 as <- <-.
  assert (Hopen : forall c, c ∈ elements (spectators ∖ {[ c0 ]}) ->
                            closed c = false).
  { intros c Hc. apply elem_of_elements, elem_of_difference in Hc as [Hc Hn].
    apply Hothers; [exact Hc|]. intros ->. apply Hn. now apply elem_of_singleton. }
  destruct (all_open closed _ Hopen) as [Hnone Hall].
  assert (Hsize : size (spectators ∖ {[ c0 ]}) = size spectators - 1).
  { rewrite size_difference, size_singleton; [reflexivity|].
    now apply singleton_subseteq_l. }
  repeat split.
  - apply attempts_members.
  - rewrite delivered_open, length_map.
    rewrite (only_closed closed (elements spectators) c0);
      [reflexivity|apply NoDup_elements|now apply elem_of_elements|exact Hc0|].
    intros c Hc. apply Hothers. now apply elem_of_elements.
  - intros c Hc Hne. apply in_map_iff. exists c. split.
    + unfold send. now rewrite (Hothers c Hc Hne).
    + apply list_elem_of_In. now apply elem_of_elements.
  - apply in_map_iff. exists c0. split.
    + unfold send. now rewrite Hc0.
    + apply list_elem_of_In. now apply elem_of_elements.
  - apply attempts_members.
  - rewrite length_map. exact Hsize.
  - rewrite delivered_open, Hall.
    apply map_ext_in. intros c Hc. unfold send.
    rewrite (Hopen c); [reflexivity|now apply list_elem_of_In].
  - rewrite Hnone. simpl. now rewrite difference_empty_L.
Qed.

Lemma broadcast_prunes_after_fan_out_witness :
  exists log1 log2,
    broadcast_commentary gone audience "ACE!" "ace" 1 = ({[ 1; 3 ]}, log1) /\
    broadcast_commentary gone {[ 1; 3 ]} "GG!" "match_end" 2 = ({[ 1; 3 ]}, log2) /\
    length (List.filter delivered log1) = 2 /\
    length log2 = 2.
Proof.
  eexists _, _.
  assert (H1 : broadcast_commentary gone audience "ACE!" "ace" 1
               = ({[ 1; 3 ]}, _)) by (vm_compute; reflexivity).
  assert (H2 : broadcast_commentary gone {[ 1; 3 ]} "GG!" "match_end" 2
               = ({[ 1; 3 ]}, _)) by (vm_compute; reflexivity).
  split; [exact H1|]. split; [exact H2|].
  assert (Hin : 2 ∈ audience) by (unfold audience; set_solver).
  assert (Hothers : forall c, c ∈ audience -> c <> 2 -> gone c = false).
  { intros c _ Hne. now apply Nat.eqb_neq. }
  destruct (broadcast_prunes_after_fan_out gone audience 2
              "ACE!" "ace" 1 "GG!" "match_end" 2 _ _ _ _
              Hin eq_refl Hothers H1 H2)
    as (_ & Hdel & _ & _ & _ & _ & Hlen & _).
  split; [exact Hdel|exact Hlen].
Defined.

End BroadcasterSpec.

(* ===================================================================== *)
(** ** Further properties of the event detector                           *)
(* ===================================================================== *)

Module DetectorMore.
Import Detector Observe PyFacts DetectorFacts Scenario.

(** *** Runs, piece by piece *)

Lemma run_app pre : forall post self self' evss,
  run self (pre ++ post) = Ok (self', evss) ->
  exists mid epre epost,
    run self pre = Ok (mid, epre) /\ run mid post = Ok (self', epost) /\
    evss = epre ++ epost /\ length epre = length pre.
Proof.
  induction pre as [|snap pre IH]; intros post self self' evss; simpl.
  - intros H. exists self, [], evss. auto.
  - intros H. apply bind_Ok in H as ([s1 ev1] & H1 & H).
    apply bind_Ok in H as ([s2 ev2] & H2 & H). simpl in *.
    injection H as <- <-.
    apply IH in H2 as (mid & epre & epost & Hpre & Hpost & -> & Hlen).
    exists mid, (ev1 :: epre), epost. rewrite H1. simpl. rewrite Hpre. simpl.
    repeat split; [exact Hpost|now rewrite Hlen].
Qed.

Lemma run_cons snap rest self self' evss :
  run self (snap :: rest) = Ok (self', evss) ->
  exists mid ev erest,
    detect self snap = Ok (mid, ev) /\ run mid rest = Ok (self', erest) /\
    evss = ev :: erest.
Proof.
  simpl. intros H. apply bind_Ok in H as ([s1 ev1] & H1 & H).
  apply bind_Ok in H as ([s2 ev2] & H2 & H). simpl in *.
  injection H as <- <-. eauto 6.
Qed.

(** *** MATCH_START *)

Lemma detect_match_start self snap self' evs :
  detect self snap = Ok (self', evs) ->
  of_type MATCH_START evs
  = start_events self snap (default 0%Z (s_tick snap))
      (default 0%Q (s_match_time snap)) /\
  match_started self' = match_started self || status_is snap "playing".
Proof.
  intros H. apply detect_inv in H as (s2 & evc & Hp & -> & ->).
  set (tk := default 0%Z (s_tick snap)) in *.
  set (ts := default 0%Q (s_match_time snap)) in *.
  apply process_champions_events in Hp as (Hc & _ & Hms).
  pose proof (check_ace_spec s2 tk ts) as Hca. cbv beta zeta in Hca.
  rewrite Hca.
  cbn [fst snd match_started set_previous_state set_team_alive_count].
  split.
  - rewrite !of_type_app.
    assert (E1 : of_type MATCH_START evc = []).
    { eapply of_type_none; [|exact Hc]. intros e He Heq.
      unfold champion_event in He. rewrite Heq in He. discriminate. }
    assert (E2 : forall (b : bool) (e : GameEvent),
              event_type e = ACE ->
              of_type MATCH_START (if b then [e] else []) = []).
    { intros b e He. destruct b; [|reflexivity].
      unfold of_type. simpl. now rewrite He. }
    assert (E3 : of_type MATCH_START (process_structures snap tk ts) = []).
    { unfold process_structures, nexus_events.
      repeat (destruct (_ && _); simpl); reflexivity. }
    assert (E4 : of_type MATCH_START (end_events snap tk ts) = []).
    { unfold end_events. now destruct (status_is _ _). }
    rewrite E1, E3, E4, !E2, !app_nil_r by reflexivity.
    unfold start_events.
    destruct (negb (match_started self) && status_is snap "playing");
      reflexivity.
  - rewrite Hms. unfold started.
    destruct (match_started self) eqn:E, (status_is snap "playing");
      simpl; rewrite ?E; reflexivity.
Qed.

Lemma run_started snaps : forall self self' evss,
  match_started self = true ->
  run self snaps = Ok (self', evss) ->
  of_type MATCH_START (concat evss) = [] /\ match_started self' = true.
Proof.
  induction snaps as [|snap rest IH]; intros self self' evss Hs H.
  - simpl in H. injection H as <- <-. auto.
  - apply run_cons in H as (mid & ev & erest & Hd & Hr & ->).
    apply detect_match_start in Hd as (He & Hm).
    rewrite Hs in Hm. simpl in Hm.
    destruct (IH _ _ _ Hm Hr) as (Hrest & Hfin).
    simpl. rewrite of_type_app, He, Hrest. unfold start_events.
    rewrite Hs. auto.
Qed.

Lemma run_not_playing snaps : forall self self' evss,
  match_started self = false ->
  Forall (fun s => status_is s "playing" = false) snaps ->
  run self snaps = Ok (self', evss) ->
  of_type MATCH_START (concat evss) = [] /\ match_started self' = false.
Proof.
  induction snaps as [|snap rest IH]; intros self self' evss Hs Hall H.
  - simpl in H. injection H as <- <-. auto.
  - apply Forall_cons in Hall as [Hsnap Hall].
    apply run_cons in H as (mid & ev & erest & Hd & Hr & ->).
    apply detect_match_start in Hd as (He & Hm).
    rewrite Hs, Hsnap in Hm. simpl in Hm.
    destruct (IH _ _ _ Hm Hall Hr) as (Hrest & Hfin).
    simpl. rewrite of_type_app, He, Hrest. unfold start_events.
    rewrite Hsnap, andb_false_r. auto.
Qed.

(** X1.  MATCH_START fires once per detector: in a run that starts with
    the flag unset, the call for the first snapshot whose status is
    "playing" returns exactly one MATCH_START event, stamped with that
    snapshot's tick and match_time and with an empty payload, and no
    call before or after it returns one. *)
Theorem match_start_fires_once self pre snap post self' evss :
  match_started self = false ->
  Forall (fun s => status_is s "playing" = false) pre ->
  status_is snap "playing" = true ->
  run self (pre ++ snap :: post) = Ok (self', evss) ->
  exists epre ev epost,
    evss = epre ++ ev :: epost /\
    length epre = length pre /\
    of_type MATCH_START (concat epre) = [] /\
    of_type MATCH_START ev
    = [ mkEvent MATCH_START (default 0%Q (s_match_time snap))
          (default 0%Z (s_tick snap)) [] ] /\
    of_type MATCH_START (concat epost) = [] /\
    match_started self' = true.
Proof.
  intros Hs Hpre Hsnap H.
  apply run_app in H as (mid & epre & erest & Hrun1 & Hrun2 & -> & Hlen).
  destruct (run_not_playing _ _ _ _ Hs Hpre Hrun1) as (Hnone & Hmid).
  apply run_cons in Hrun2 as (mid2 & ev & epost & Hd & Hr & ->).
  apply detect_match_start in Hd as (He & Hm).
  rewrite Hmid, Hsnap in Hm. simpl in Hm.
  destruct (run_started _ _ _ _ Hm Hr) as (Hpost & Hfin).
  exists epre, ev, epost. repeat split; try assumption.
  rewrite He. unfold start_events. now rewrite Hmid, Hsnap.
Qed.

Lemma match_start_fires_once_witness :
  exists epre ev epost self',
    run init duel = Ok (self', epre ++ ev :: epost) /\
    epre = [] /\
    of_type MATCH_START ev = [ mkEvent MATCH_START 0 1 [] ] /\
    of_type MATCH_START (concat epost) = [].
Proof.
  destruct (run init duel) as [[self' evss]|] eqn:Hrun;
    [|vm_compute in Hrun; discriminate].
  destruct (match_start_fires_once init [] duel_opening (tl duel) self' evss
              eq_refl ltac:(constructor) eq_refl Hrun)
    as (epre & ev & epost & -> & Hlen & _ & Hev & Hpost & _).
  exists epre, ev, epost, self'. repeat split; try assumption.
  now destruct epre.
Defined.

(** *** What one processed record does to a tracked champion *)

Lemma dict_get_app_Some {V} k (d d' : list (string * V)) v :
  dict_get k d = Some v -> dict_get k (d ++ d') = Some v.
Proof.
  induction d as [|[k0 v0] d IH]; simpl; [discriminate|].
  destruct (String.eqb k0 k); auto.
Qed.

(** The death handling touches one champion at most, the killer, and
    only its streak and window. *)
Lemma on_death_lookup self vid victim tk ts self1 dev k c :
  on_champion_death self vid victim tk ts = Ok (self1, dev) ->
  dict_get k (champion_states self) = Some c ->
  exists c1,
    dict_get k (champion_states self1) = Some c1 /\
    (c1 = c \/ c1 = credit_kill ts c).
Proof.
  intros H Hget.
  destruct (find_likely_killer self victim) as [[[kid kobj]|]|e] eqn:Hk.
  - rewrite (on_death_resolved _ _ _ _ _ _ _ Hk) in H. injection H as <- _.
    simpl. rewrite dict_get_alter, Hget.
    destruct (String.eqb kid k); simpl; eauto.
  - rewrite (on_death_unresolved _ _ _ _ _ Hk) in H. injection H as <- _.
    simpl. eauto.
  - rewrite (on_death_raise _ _ _ _ _ _ Hk) in H. discriminate.
Qed.

(** [settle] touches the processed champion only: it resets the streak
    on the respawn edge and refreshes the reported fields. *)
Lemma settle_lookup cd prev self1 k c1 :
  dict_get k (champion_states self1) = Some c1 ->
  exists c',
    dict_get k (champion_states (settle cd prev self1)) = Some c' /\
    id c' = id c1 /\ champion c' = champion c1 /\ team c' = team c1 /\
    recent_kills c' = recent_kills c1 /\
    kill_streak c'
    = (if String.eqb (default "" (c_id cd)) k
          && (negb (is_alive prev) && default true (c_is_alive cd))
       then 0 else kill_streak c1).
Proof.
  intros Hget. unfold settle.
  destruct (negb (is_alive prev) && default true (c_is_alive cd)); simpl;
    rewrite !dict_get_alter, Hget;
    destruct (String.eqb (default "" (c_id cd)) k); simpl;
    eexists; (split; [reflexivity|]); repeat split.
Qed.

(** X2.  Processing one champion record changes the kill streak of a
    tracked champion in two ways only.  On the respawn edge of that
    very champion (tracked dead, reported alive) the streak becomes 0
    and the record yields no kill event; in every other case the streak
    stays or grows by one, so nothing but a respawn ever lowers it. *)
Theorem kill_streak_resets_only_on_respawn self cd tk ts self' evs k c :
  process_champion self cd tk ts = Ok (self', evs) ->
  dict_get k (champion_states self) = Some c ->
  let respawn :=
    k = default "" (c_id cd) /\ is_alive c = false /\
    default true (c_is_alive cd) = true in
  exists c',
    dict_get k (champion_states self') = Some c' /\
    (respawn -> kill_streak c' = 0 /\ kill_types evs = []) /\
    (~ respawn ->
       kill_streak c <= kill_streak c' /\ kill_streak c' <= S (kill_streak c)).
Proof.
  intros H Hget respawn. subst respawn.
  pose proof (process_champion_kills _ _ _ _ _ _ H) as (Hkt & _).
  apply process_champion_cases in H.
  destruct H as [(Hnone & -> & ->)|[(prev & Hprev & He & -> & ->)
                                   |(prev & s1 & dev & Hprev & He & Hd & -> & ->)]].
  - exists c. simpl. split; [now apply dict_get_app_Some|]. split.
    + intros (-> & _). congruence.
    + lia.
  - destruct (settle_lookup cd prev self k c Hget)
      as (c' & Hc' & _ & _ & _ & _ & Hs).
    exists c'. split; [exact Hc'|]. rewrite Hs. split.
    + intros (-> & Hdead & Halive).
      rewrite Hprev in Hget. injection Hget as ->.
      rewrite String.eqb_refl, Hdead, Halive. simpl.
      split; [reflexivity|]. rewrite Hkt, He. reflexivity.
    + intros Hno. destruct (String.eqb_spec (default "" (c_id cd)) k) as [Heq|Hne];
        simpl; [|lia].
      destruct (negb (is_alive prev) && default true (c_is_alive cd)) eqn:Hb;
        [|lia].
      exfalso. apply Hno. apply andb_true_iff in Hb as [Hdead Halive].
      apply negb_true_iff in Hdead. subst k.
      rewrite Hprev in Hget. injection Hget as ->. auto.
  - unfold death_edge in He. rewrite Hprev in He.
    apply andb_true_iff in He as [Hal Hrep]. apply negb_true_iff in Hrep.
    destruct (on_death_lookup _ _ _ _ _ _ _ _ _ Hd Hget) as (c1 & Hc1 & Hcase).
    destruct (settle_lookup cd prev s1 k c1 Hc1)
      as (c' & Hc' & _ & _ & _ & _ & Hs).
    exists c'. split; [exact Hc'|]. rewrite Hs, Hal, Hrep. simpl.
    rewrite andb_false_r. split.
    + intros (_ & _ & Habs). congruence.
    + intros _. destruct Hcase as [-> | ->]; simpl; lia.
Qed.

Lemma kill_streak_resets_only_on_respawn_witness :
  exists self' c',
    process_champion (state_after (firstn 2 duel))
      (champ "a" "Ahri" "blue" true 0 0) 3 20 = Ok (self', []) /\
    dict_get "a" (champion_states self') = Some c' /\
    kill_streak c' = 0.
Proof.
  destruct (process_champion (state_after (firstn 2 duel))
              (champ "a" "Ahri" "blue" true 0 0) 3 20)
    as [[self' evs]|] eqn:Hp; [|vm_compute in Hp; discriminate].
  destruct (kill_streak_resets_only_on_respawn _ _ _ _ _ _ "a"
              (mkChampion "a" "Ahri" "blue" 0 600 1 false
                 [("x", 0%Q); ("y", 0%Q)] 0 [])
              Hp ltac:(vm_compute; reflexivity))
    as (c' & Hc' & Hre & _).
  destruct (Hre (conj eq_refl (conj eq_refl eq_refl))) as (Hz & _).
  exists self', c'. split; [|auto].
  vm_compute in Hp. injection Hp as <- <-. vm_compute. reflexivity.
Defined.

(** X3.  For a tracked champion, LEVEL_UP is emitted exactly when the
    reported level (1 when absent) is above the stored one, and
    ULTIMATE_READY exactly when, in addition, the reported level is 6:
    a champion that jumps over level 6 gets no ULTIMATE_READY, and one
    reported at an equal or lower level gets neither event.  The stored
    level becomes the reported one in every case. *)
Theorem level_up_and_ultimate self cd tk ts self' evs prev :
  let cid := default "" (c_id cd) in
  let lvl := default 1%Z (c_level cd) in
  dict_get cid (champion_states self) = Some prev ->
  process_champion self cd tk ts = Ok (self', evs) ->
  ((level prev < lvl)%Z ->
     of_type LEVEL_UP evs =
     [ mkEvent LEVEL_UP ts tk
         [ ("champion_id", VStr cid); ("champion", VStr (champion prev));
           ("team", VStr (team prev)); ("new_level", VInt lvl) ] ]) /\
  ((lvl <= level prev)%Z ->
     of_type LEVEL_UP evs = [] /\ of_type ULTIMATE_READY evs = []) /\
  ((level prev < lvl)%Z -> lvl = 6%Z ->
     of_type ULTIMATE_READY evs =
     [ mkEvent ULTIMATE_READY ts tk
         [ ("champion_id", VStr cid); ("champion", VStr (champion prev));
           ("team", VStr (team prev)) ] ]) /\
  (lvl <> 6%Z -> of_type ULTIMATE_READY evs = []) /\
  (exists c', dict_get cid (champion_states self') = Some c' /\ level c' = lvl).
Proof.
  intros cid lvl Hprev H. subst cid lvl.
  assert (Hev : exists dev self1,
            evs = dev ++ level_events (default "" (c_id cd)) prev
                           (default 1%Z (c_level cd)) tk ts /\
            Forall (fun e => event_type e <> LEVEL_UP /\
                             event_type e <> ULTIMATE_READY) dev /\
            self' = settle cd prev self1 /\
            exists c1, dict_get (default "" (c_id cd)) (champion_states self1)
                       = Some c1).
  { apply process_champion_cases in H.
    destruct H as [(Hnone & _)|[(prev' & Hprev' & _ & -> & ->)
                               |(prev' & s1 & dev & Hprev' & _ & Hd & -> & ->)]].
    - congruence.
    - rewrite Hprev in Hprev'. injection Hprev' as <-.
      exists [], self. repeat split; eauto.
    - rewrite Hprev in Hprev'. injection Hprev' as <-.
      exists dev, s1. repeat split.
      + apply on_death_events in Hd
          as (killer & _ & _ & _ & _ & rest & -> & Hrest & _).
        constructor.
        * unfold kill_event. simpl.
          destruct (first_blood_occurred self); split; discriminate.
        * eapply List.Forall_impl; [|exact Hrest].
          intros e [He | [He | [He | He]]]; rewrite He; split; discriminate.
      + destruct (on_death_keeps_keys _ _ _ _ _ _ _ _ _ Hd Hprev) as (c1 & Hc1).
        eauto. }
  destruct Hev as (dev & self1 & -> & Hdev & -> & c1 & Hc1).
  assert (Hd1 : of_type LEVEL_UP dev = []).
  { eapply of_type_none; [|exact Hdev]. intros e [He _]. exact He. }
  assert (Hd2 : of_type ULTIMATE_READY dev = []).
  { eapply of_type_none; [|exact Hdev]. intros e [_ He]. exact He. }
  rewrite !of_type_app, Hd1, Hd2. simpl app. unfold level_events.
  split; [|split; [|split; [|split]]].
  - intros Hlt. apply Z.ltb_lt in Hlt. rewrite Hlt.
    destruct (Z.eqb _ 6); reflexivity.
  - intros Hle. apply Z.ltb_ge in Hle. rewrite Hle. auto.
  - intros Hlt H6. apply Z.ltb_lt in Hlt. rewrite Hlt, H6. reflexivity.
  - intros Hne. apply Z.eqb_neq in Hne. rewrite Hne.
    destruct (Z.ltb _ _); reflexivity.
  - destruct (settle_refreshes cd prev self1 c1 Hc1)
      as (c' & Hc' & _ & _ & Hl & _). eauto.
Qed.

Lemma level_up_and_ultimate_witness :
  exists self' evs,
    process_champion (state_after [lonely_opening]) reaches_six 2 10
    = Ok (self', evs) /\
    of_type ULTIMATE_READY evs =
    [ mkEvent ULTIMATE_READY 10 2
        [ ("champion_id", VStr "a"); ("champion", VStr "Ahri");
          ("team", VStr "blue") ] ].
Proof.
  eexists _, _. split; [vm_compute; reflexivity|].
  refine (proj1 (proj2 (proj2
            (level_up_and_ultimate (state_after [lonely_opening]) reaches_six
               2 10 _ _
               (new_champion "a" (champ "a" "Ahri" "blue" true 0 0))
               eq_refl _))) _ _).
  - vm_compute. reflexivity.
  - reflexivity.
  - reflexivity.
Defined.

(** *** Lifting a relation on tracked states from one record to a run *)

Section Lift.
Variable R : list (string * ChampionState) -> list (string * ChampionState) -> Prop.
Hypothesis R_refl : forall cs, R cs cs.
Hypothesis R_trans : forall a b c, R a b -> R b c -> R a c.
Hypothesis R_step : forall self cd tk ts self' evs,
  process_champion self cd tk ts = Ok (self', evs) ->
  R (champion_states self) (champion_states self').

Lemma lift_champions champs : forall self tk ts self' evs,
  process_champions self champs tk ts = Ok (self', evs) ->
  R (champion_states self) (champion_states self').
Proof using R_refl R_trans R_step.
  induction champs as [|cd rest IH]; intros self tk ts self' evs; simpl.
  - intros [= <- _]. apply R_refl.
  - intros H. apply bind_Ok in H as ([s1 ev1] & H1 & H).
    apply bind_Ok in H as ([s2 ev2] & H2 & H). simpl in *.
    injection H as <- _. eapply R_trans; eauto.
Qed.

Lemma lift_detect self snap self' evs :
  detect self snap = Ok (self', evs) ->
  R (champion_states self) (champion_states self').
Proof using R_refl R_trans R_step.
  intros H. apply detect_inv in H as (s2 & evc & Hp & -> & _).
  pose proof (check_ace_spec s2 (default 0%Z (s_tick snap))
                (default 0%Q (s_match_time snap))) as Hca.
  cbv beta zeta in Hca. rewrite Hca. simpl.
  apply lift_champions in Hp. now rewrite started_champion_states in Hp.
Qed.

Lemma lift_run snaps : forall self self' evss,
  run self snaps = Ok (self', evss) ->
  R (champion_states self) (champion_states self').
Proof using R_refl R_trans R_step.
  induction snaps as [|snap rest IH]; intros self self' evss H.
  - simpl in H. injection H as <- _. apply R_refl.
  - apply run_cons in H as (mid & ev & erest & Hd & Hr & _).
    eapply R_trans; [eapply lift_detect|eapply IH]; eauto.
Qed.
End Lift.

Lemma extends_refl cs : extends cs cs.
Proof.
  split; [eauto|]. exists []. now rewrite app_nil_r.
Qed.

Lemma extends_trans a b c : extends a b -> extends b c -> extends a c.
Proof.
  intros (H1 & add1 & K1) (H2 & add2 & K2). split.
  - intros k x Hx. destruct (H1 _ _ Hx) as (y & Hy & I1 & I2 & I3).
    destruct (H2 _ _ Hy) as (z & Hz & J1 & J2 & J3).
    exists z. repeat split; congruence.
  - exists (add1 ++ add2). now rewrite K2, K1, app_assoc.
Qed.

Lemma extends_step self cd tk ts self' evs :
  process_champion self cd tk ts = Ok (self', evs) ->
  extends (champion_states self) (champion_states self').
Proof.
  intros H. apply process_champion_cases in H.
  destruct H as [(Hnone & -> & _)|[(prev & Hprev & _ & -> & _)
                                  |(prev & s1 & dev & Hprev & _ & Hd & -> & _)]].
  - split.
    + intros k c Hget. exists c. simpl. split; [now apply dict_get_app_Some|auto].
    + eexists. simpl. unfold dict_keys. now rewrite map_app.
  - split.
    + intros k c Hget.
      destruct (settle_lookup cd prev self k c Hget)
        as (c' & Hc' & I1 & I2 & I3 & _). eauto.
    + exists []. now rewrite settle_keys, app_nil_r.
  - split.
    + intros k c Hget.
      destruct (on_death_lookup _ _ _ _ _ _ _ _ _ Hd Hget) as (c1 & Hc1 & Hcase).
      destruct (settle_lookup cd prev s1 k c1 Hc1)
        as (c' & Hc' & I1 & I2 & I3 & _).
      exists c'. split; [exact Hc'|].
      destruct Hcase as [-> | ->]; auto.
    + exists []. now rewrite settle_keys, (on_death_keys _ _ _ _ _ _ _ Hd),
                   app_nil_r.
Qed.

(** X4.  A champion, once tracked, is tracked for the rest of the run
    under the same key, and its id, champion name and team are those of
    its first sighting: later records cannot change them, whatever they
    report.  Champions seen for the first time are appended after the
    ones already tracked, so the iteration order of the earlier ones
    never changes. *)
Theorem tracked_identity_is_fixed self snaps self' evss k c :
  run self snaps = Ok (self', evss) ->
  dict_get k (champion_states self) = Some c ->
  (exists c',
     dict_get k (champion_states self') = Some c' /\
     id c' = id c /\ champion c' = champion c /\ team c' = team c) /\
  (exists added,
     dict_keys (champion_states self')
     = dict_keys (champion_states self) ++ added).
Proof.
  intros H Hget.
  destruct (lift_run extends extends_refl extends_trans extends_step
              _ _ _ _ H) as (Hid & Hkeys).
  split; [now apply Hid|exact Hkeys].
Qed.

Lemma tracked_identity_is_fixed_witness :
  exists self' evss c',
    run (state_after [duel_opening]) defector = Ok (self', evss) /\
    dict_get "a" (champion_states self') = Some c' /\
    champion c' = "Ahri" /\ team c' = "blue" /\
    dict_keys (champion_states self') = ["a"; "b"; "c"].
Proof.
  destruct (run (state_after [duel_opening]) defector)
    as [[self' evss]|] eqn:Hrun; [|vm_compute in Hrun; discriminate].
  destruct (tracked_identity_is_fixed _ _ _ _ "a"
              (new_champion "a" (champ "a" "Ahri" "blue" true 0 0))
              Hrun eq_refl) as ((c' & Hc' & _ & Hname & Hteam) & _).
  exists self', evss, c'. repeat split; try assumption.
  vm_compute in Hrun. injection Hrun as <- _. reflexivity.
Defined.

(** *** The recent-kill windows along a run *)

Lemma ascending_filter (f : Q -> bool) w :
  ascending w -> ascending (List.filter f w).
Proof.
  induction w as [|t w IH]; simpl; [auto|]. intros [Ht Hw].
  destruct (f t); simpl; [|auto]. split; [|auto].
  apply List.Forall_forall. intros u Hu. apply filter_In in Hu as [Hu _].
  rewrite List.Forall_forall in Ht. auto.
Qed.

Lemma ascending_snoc w (ts : Q) :
  ascending w -> Forall (fun t => (t <= ts)%Q) w -> ascending (w ++ [ts]).
Proof.
  induction w as [|t w IH]; simpl; intros Hw Hle.
  - split; constructor.
  - destruct Hw as [Ht Hw]. apply Forall_cons in Hle as [Hts Hle].
    split; [|auto]. apply Forall_app. split; [exact Ht|].
    constructor; [exact Hts|constructor].
Qed.

Lemma window_ok_mono (now ts : Q) w :
  (now <= ts)%Q -> window_ok now w -> window_ok ts w.
Proof.
  intros Hle (Ha & Hn & Hs). split; [exact Ha|]. split; [|exact Hs].
  eapply List.Forall_impl; [|exact Hn]. intros t Ht. simpl in Ht. lra.
Qed.

Lemma window_ok_credit (ts : Q) w :
  window_ok ts w ->
  window_ok ts (List.filter (fun t => Qltb (ts - t) 10) (w ++ [ts])).
Proof.
  intros (Ha & Hn & _).
  assert (Hall : Forall (fun t => (t <= ts)%Q) (w ++ [ts])).
  { apply Forall_app. split; [exact Hn|].
    constructor; [apply Qle_refl|constructor]. }
  split; [|split].
  - apply ascending_filter, ascending_snoc; assumption.
  - apply List.Forall_forall. intros t Ht. apply filter_In in Ht as [Ht _].
    rewrite List.Forall_forall in Hall. auto.
  - apply List.Forall_forall. intros t Ht. apply filter_In in Ht as [_ Ht].
    apply Qltb_lt in Ht.
    apply List.Forall_forall. intros u Hu. apply filter_In in Hu as [Hu _].
    rewrite List.Forall_forall in Hall. specialize (Hall u Hu).
    simpl in Hall. lra.
Qed.

Lemma windows_ok_step (ts : Q) self cd tk self' evs :
  windows_ok ts self ->
  process_champion self cd tk ts = Ok (self', evs) ->
  windows_ok ts self'.
Proof.
  intros Hok H. apply process_champion_cases in H.
  assert (Hsettle : forall prev s1, windows_ok ts s1 ->
                                    windows_ok ts (settle cd prev s1)).
  { intros prev s1 H1. unfold settle, windows_ok.
    destruct (negb (is_alive prev) && _); simpl;
      repeat (apply Forall_values_alter; [intros v Hv; exact Hv|]);
      exact H1. }
  destruct H as [(Hnone & -> & _)|[(prev & _ & _ & -> & _)
                                  |(prev & s1 & dev & _ & _ & Hd & -> & _)]].
  - unfold windows_ok, dict_values. simpl. rewrite map_app.
    apply Forall_app. split; [exact Hok|].
    repeat constructor.
  - now apply Hsettle.
  - apply Hsettle.
    destruct (find_likely_killer self prev) as [[[kid kobj]|]|e] eqn:Hk.
    + rewrite (on_death_resolved _ _ _ _ _ _ _ Hk) in Hd. injection Hd as <- _.
      unfold windows_ok. simpl.
      apply Forall_values_alter; [|exact Hok].
      intros v Hv. simpl. now apply window_ok_credit.
    + rewrite (on_death_unresolved _ _ _ _ _ Hk) in Hd. injection Hd as <- _.
      exact Hok.
    + rewrite (on_death_raise _ _ _ _ _ _ Hk) in Hd. discriminate.
Qed.

Lemma windows_ok_champions (ts : Q) champs : forall self tk self' evs,
  windows_ok ts self ->
  process_champions self champs tk ts = Ok (self', evs) ->
  windows_ok ts self'.
Proof.
  induction champs as [|cd rest IH]; intros self tk self' evs Hok; simpl.
  - now intros [= <- _].
  - intros H. apply bind_Ok in H as ([s1 ev1] & H1 & H).
    apply bind_Ok in H as ([s2 ev2] & H2 & H). simpl in *.
    injection H as <- _.
    eapply IH; [|exact H2]. eapply windows_ok_step; eauto.
Qed.

Lemma windows_ok_detect (now : Q) self snap self' evs :
  windows_ok now self -> (now <= time_of snap)%Q ->
  detect self snap = Ok (self', evs) ->
  windows_ok (time_of snap) self'.
Proof.
  intros Hok Hle H. apply detect_inv in H as (s2 & evc & Hp & -> & _).
  pose proof (check_ace_spec s2 (default 0%Z (s_tick snap))
                (default 0%Q (s_match_time snap))) as Hca.
  cbv beta zeta in Hca. rewrite Hca. unfold windows_ok. simpl.
  eapply (windows_ok_champions (time_of snap)); [|exact Hp].
  unfold windows_ok. rewrite started_champion_states.
  eapply List.Forall_impl; [|exact Hok].
  intros c Hc. now apply (window_ok_mono now).
Qed.

(** X5.  Along a run whose match times do not run backwards, every
    tracked recent-kill window stays in ascending order, holds no time
    later than the last snapshot's, and never holds two kills ten
    seconds or more apart. *)
Theorem recent_kill_windows_stay_sorted_and_short snaps :
  forall (now : Q) self self' evss,
  windows_ok now self ->
  nondecreasing now snaps ->
  run self snaps = Ok (self', evss) ->
  windows_ok (last_time now snaps) self'.
Proof.
  induction snaps as [|snap rest IH]; intros now self self' evss Hok Hnd H.
  - simpl in H. injection H as <- _. exact Hok.
  - destruct Hnd as [Hle Hnd].
    apply run_cons in H as (mid & ev & erest & Hd & Hr & _).
    unfold last_time. simpl. fold (last_time (time_of snap) rest).
    eapply IH; [|exact Hnd|exact Hr].
    eapply windows_ok_detect; eauto.
Qed.

Lemma recent_kill_windows_stay_sorted_and_short_witness :
  windows_ok 3 (state_after rampage3).
Proof.
  destruct (run init rampage3) as [[self' evss]|] eqn:Hrun;
    [|vm_compute in Hrun; discriminate].
  assert (Hs : state_after rampage3 = self').
  { unfold state_after. now rewrite Hrun. }
  rewrite Hs.
  apply (recent_kill_windows_stay_sorted_and_short rampage3 0 init self' evss).
  - constructor.
  - vm_compute. repeat split; discriminate.
  - exact Hrun.
Defined.

(** *** The killer search finds the nearest alive enemy *)






(** *** Every event of a call *)

Lemma kill_event_emitted self victim killer tk ts :
  emitted_ok tk ts (kill_event self victim killer tk ts).
Proof.
  unfold emitted_ok, kill_event.
  destruct (first_blood_occurred self), killer as [[kid k]|];
    repeat split; vm_compute; reflexivity.
Qed.

Lemma multikill_events_emitted k tk ts :
  Forall (emitted_ok tk ts) (multikill_events k tk ts).
Proof.
  unfold multikill_events.
  destruct (Nat.eqb _ 2); [repeat constructor|].
  destruct (Nat.eqb _ 3); [repeat constructor|].
  destruct (Nat.ltb 3 _); repeat constructor.
Qed.

Lemma shutdown_events_emitted v k tk ts :
  Forall (emitted_ok tk ts) (shutdown_events v k tk ts).
Proof.
  unfold shutdown_events. destruct (Nat.leb _ _); repeat constructor.
Qed.

Lemma level_events_emitted cid prev lvl tk ts :
  Forall (emitted_ok tk ts) (level_events cid prev lvl tk ts).
Proof.
  unfold level_events. destruct (Z.ltb _ _); [|constructor].
  destruct (Z.eqb _ _); repeat constructor.
Qed.

Lemma on_death_emitted self vid victim tk ts self' evs :
  on_champion_death self vid victim tk ts = Ok (self', evs) ->
  Forall (emitted_ok tk ts) evs.
Proof.
  intros H.
  destruct (find_likely_killer self victim) as [[[kid kobj]|]|e] eqn:Hk.
  - rewrite (on_death_resolved _ _ _ _ _ _ _ Hk) in H. injection H as _ <-.
    constructor; [apply kill_event_emitted|].
    apply Forall_app. split;
      [apply multikill_events_emitted|apply shutdown_events_emitted].
  - rewrite (on_death_unresolved _ _ _ _ _ Hk) in H. injection H as _ <-.
    constructor; [apply kill_event_emitted|constructor].
  - rewrite (on_death_raise _ _ _ _ _ _ Hk) in H. discriminate.
Qed.

Lemma process_champion_emitted self cd tk ts self' evs :
  process_champion self cd tk ts = Ok (self', evs) ->
  Forall (emitted_ok tk ts) evs.
Proof.
  intros H. apply process_champion_cases in H.
  destruct H as [(_ & _ & ->)|[(prev & _ & _ & _ & ->)
                              |(prev & s1 & dev & _ & _ & Hd & _ & ->)]].
  - constructor.
  - apply level_events_emitted.
  - apply Forall_app. split;
      [now apply on_death_emitted in Hd|apply level_events_emitted].
Qed.

Lemma process_champions_emitted champs : forall self tk ts self' evs,
  process_champions self champs tk ts = Ok (self', evs) ->
  Forall (emitted_ok tk ts) evs.
Proof.
  induction champs as [|cd rest IH]; intros self tk ts self' evs; simpl.
  - intros [= _ <-]. constructor.
  - intros H. apply bind_Ok in H as ([s1 ev1] & H1 & H).
    apply bind_Ok in H as ([s2 ev2] & H2 & H). simpl in *.
    injection H as _ <-. apply Forall_app. split.
    + now apply process_champion_emitted in H1.
    + now apply IH in H2.
Qed.

Lemma detect_emitted self snap self' evs :
  detect self snap = Ok (self', evs) ->
  Forall (emitted_ok (default 0%Z (s_tick snap)) (time_of snap)) evs.
Proof.
  intros H. apply detect_inv in H as (s2 & evc & Hp & _ & ->).
  unfold time_of.
  set (tk := default 0%Z (s_tick snap)) in *.
  set (ts := default 0%Q (s_match_time snap)) in *.
  pose proof (check_ace_spec s2 tk ts) as Hca. cbv beta zeta in Hca.
  rewrite Hca. cbn [snd]. clear Hca.
  repeat (apply Forall_app; split).
  - unfold start_events.
    destruct (negb (match_started self) && status_is snap "playing");
      repeat constructor.
  - now apply process_champions_emitted in Hp.
  - destruct (Nat.ltb 0 _ && _); repeat constructor.
  - destruct (Nat.ltb 0 _ && _); repeat constructor.
  - unfold nexus_events. destruct (Qleb _ 1000 && _); repeat constructor.
  - unfold nexus_events. destruct (Qleb _ 1000 && _); repeat constructor.
  - unfold end_events. destruct (status_is snap "ended"); [|constructor].
    constructor; [|constructor]. repeat split.
Qed.

(** X7.  Every event that a call of [detect] returns carries the tick
    and match_time of the snapshot of that call (0 where absent), and
    its type is one of MATCH_START, FIRST_BLOOD, CHAMPION_KILL,
    DOUBLE_KILL, TRIPLE_KILL, MULTI_KILL, SHUTDOWN, LEVEL_UP,
    ULTIMATE_READY, ACE, NEXUS_LOW and MATCH_END: TOWER_DESTROYED,
    NEXUS_DESTROYED and the combat and lane events are never emitted. *)
Theorem detect_event_stamps_and_types self snap self' evs e :
  detect self snap = Ok (self', evs) ->
  In e evs ->
  timestamp e = default 0%Q (s_match_time snap) /\
  tick e = default 0%Z (s_tick snap) /\
  In (event_type e)
     [ MATCH_START; FIRST_BLOOD; CHAMPION_KILL; DOUBLE_KILL; TRIPLE_KILL;
       MULTI_KILL; SHUTDOWN; LEVEL_UP; ULTIMATE_READY; ACE; NEXUS_LOW;
       MATCH_END ].
Proof.
  intros H Hin. apply detect_emitted in H.
  rewrite List.Forall_forall in H. destruct (H e Hin) as (Hts & Htk & Hty & _).
  split; [exact Hts|]. split; [exact Htk|].
  unfold detectable in Hty. destruct (event_type e); try discriminate;
    simpl; tauto.
Qed.

Lemma detect_event_stamps_and_types_witness :
  exists self' e rest,
    detect (state_after [duel_opening]) duel_first_death = Ok (self', e :: rest) /\
    timestamp e = 10%Q /\ tick e = 2%Z.
Proof.
  eexists _, _, _. split; [vm_compute; reflexivity|].
  destruct (detect_event_stamps_and_types (state_after [duel_opening])
              duel_first_death _ _ _
              ltac:(vm_compute; reflexivity) (or_introl eq_refl))
    as (Hts & Htk & _).
  split; [exact Hts|exact Htk].
Defined.

(** X8.  The events of one call come in a fixed order: MATCH_START (at
    most one) first, then the events of the champion records (kills,
    multi-kills, shutdowns, level-ups), then the ACE events, blue
    before red, then the NEXUS_LOW events, blue before red, and
    MATCH_END (at most one) last. *)
Theorem detect_emission_order self snap self' evs :
  detect self snap = Ok (self', evs) ->
  exists starts champs aces lows ends,
    evs = starts ++ champs ++ aces ++ lows ++ ends /\
    Forall (fun e => event_type e = MATCH_START) starts /\ length starts <= 1 /\
    Forall (fun e => champion_event e = true) champs /\
    Forall (fun e => event_type e = ACE) aces /\
    aces = ace_for "blue" aces ++ ace_for "red" aces /\
    Forall (fun e => event_type e = NEXUS_LOW) lows /\
    lows = nexus_low_for "blue" lows ++ nexus_low_for "red" lows /\
    Forall (fun e => event_type e = MATCH_END) ends /\ length ends <= 1.
Proof.
  intros H. apply detect_inv in H as (s2 & evc & Hp & _ & ->).
  set (tk := default 0%Z (s_tick snap)) in *.
  set (ts := default 0%Q (s_match_time snap)) in *.
  pose proof (check_ace_spec s2 tk ts) as Hca. cbv beta zeta in Hca.
  rewrite Hca. cbn [snd]. clear Hca.
  apply process_champions_events in Hp as (Hc & _ & _).
  eexists _, evc, _, _, _. split; [reflexivity|].
  split; [|split; [|split; [exact Hc|]]].
  - unfold start_events.
    destruct (negb (match_started self) && status_is snap "playing");
      repeat constructor.
  - unfold start_events.
    destruct (negb (match_started self) && status_is snap "playing");
      simpl; lia.
  - split; [|split; [|split; [|split; [|split]]]].
    + apply Forall_app. split; destruct (Nat.ltb 0 _ && _); repeat constructor.
    + destruct (Nat.ltb 0 (default 0 (dict_get "blue" _)) && _);
        destruct (Nat.ltb 0 (default 0 (dict_get "red" _)) && _); reflexivity.
    + unfold process_structures, nexus_events.
      apply Forall_app. split; destruct (Qleb _ 1000 && _); repeat constructor.
    + unfold process_structures, nexus_events.
      destruct (Qleb (default 5000%Q (nexus_health_key "blue" snap)) 1000 && _);
        destruct (Qleb (default 5000%Q (nexus_health_key "red" snap)) 1000 && _);
        reflexivity.
    + unfold end_events. destruct (status_is snap "ended"); repeat constructor.
    + unfold end_events. destruct (status_is snap "ended"); simpl; lia.
Qed.

Lemma detect_emission_order_witness :
  exists self' evs starts champs aces lows ends,
    detect (state_after [duel_opening]) duel_first_death = Ok (self', evs) /\
    evs = starts ++ champs ++ aces ++ lows ++ ends /\
    Forall (fun e => champion_event e = true) champs /\
    Forall (fun e => event_type e = ACE) aces.
Proof.
  destruct (detect (state_after [duel_opening]) duel_first_death)
    as [[self' evs]|] eqn:Hd; [|vm_compute in Hd; discriminate].
  destruct (detect_emission_order _ _ _ _ Hd)
    as (starts & champs & aces & lows & ends & He & _ & _ & Hc & Ha & _).
  exists self', evs, starts, champs, aces, lows, ends. auto.
Defined.

End DetectorMore.

(* ===================================================================== *)
(** ** Further properties of rendering, the engine and the fan-out        *)
(* ===================================================================== *)

Module CommentaryMore.
Import Detector Commentary Observe PyFacts Scenario.

Section Rendering.
Variable float_str : Q -> string.
Variable float_fixed0 : Q -> string.

Lemma append_nonempty_r (a b : string) : b <> "" -> String.append a b <> "".
Proof. destruct a; simpl; [auto|discriminate]. Qed.

(** A payload that covers the pieces renders, and to a non-empty text
    when the pieces have literal text. *)
Lemma covers_render data ps :
  covers data ps = true ->
  exists text,
    render float_str float_fixed0 data ps = Ok text /\
    (has_lit ps = true -> text <> "").
Proof.
  induction ps as [|p rest IH]; simpl; intros Hc.
  - exists "". split; [reflexivity|discriminate].
  - destruct p as [c|name spec|]; [| |discriminate].
    + destruct (IH Hc) as (r & -> & _). simpl.
      exists (String c r). split; [reflexivity|discriminate].
    + apply andb_true_iff in Hc as [Hpos Hc].
      apply negb_true_iff in Hpos. rewrite Hpos.
      destruct (dict_get name data) as [v|]; [|discriminate].
      apply andb_true_iff in Hc as [Hspec Hc].
      destruct (IH Hc) as (r & Hr & Hne).
      assert (Hv : exists txt, format_value float_str float_fixed0 v spec = Ok txt).
      { unfold format_value. apply orb_true_iff in Hspec as [Hs | Hs].
        - rewrite Hs. eauto.
        - apply andb_true_iff in Hs as [Hs Hn].
          destruct (String.eqb spec ""); [eauto|]. rewrite Hs.
          destruct v; try discriminate; eauto. }
      destruct Hv as (txt & ->). simpl. rewrite Hr. simpl.
      exists (String.append txt r). split; [reflexivity|].
      intros Hl. apply append_nonempty_r. auto.
Qed.

Lemma random_choice_member draw t rest :
  In (random_choice draw (t :: rest)) (t :: rest).
Proof.
  unfold random_choice. apply nth_In.
  apply Nat.mod_upper_bound. discriminate.
Qed.

Lemma speakable_renders e draw :
  speakable e = true ->
  exists templates text,
    TEMPLATES (event_type e) = Some templates /\
    format float_str float_fixed0 (random_choice draw templates) (data e)
    = Ok text /\
    text <> "" /\
    generate_template float_str float_fixed0 draw e = Ok (Some text).
Proof.
  unfold speakable, generate_template.
  destruct (TEMPLATES (event_type e)) as [[|t ts]|]; try discriminate.
  intros Hall. rewrite forallb_forall in Hall.
  specialize (Hall _ (random_choice_member draw t ts)).
  apply andb_true_iff in Hall as [Hc Hl].
  destruct (covers_render _ _ Hc) as (text & Hr & Hne).
  exists (t :: ts), text. unfold format. rewrite Hr. auto.
Qed.

Lemma parse_brace_free s :
  brace_free s = true ->
  parse_template Outside s = map Lit (list_ascii_of_string s).
Proof.
  induction s as [|c s IH]; simpl; [reflexivity|]. intros H.
  apply andb_true_iff in H as [H Hs]. apply andb_true_iff in H as [H1 H2].
  apply negb_true_iff in H1, H2. rewrite H1, H2. now rewrite IH.
Qed.

Lemma render_literals data s :
  render float_str float_fixed0 data (map Lit (list_ascii_of_string s)) = Ok s.
Proof.
  induction s as [|c s IH]; simpl; [reflexivity|]. now rewrite IH.
Qed.

(** X9.  A format string without braces is rendered to itself, whatever
    the payload holds: text without placeholders is never altered and
    never fails. *)
Theorem format_keeps_text_without_braces s data :
  brace_free s = true ->
  format float_str float_fixed0 s data = Ok s.
Proof.
  intros H. unfold format. rewrite (parse_brace_free _ H).
  apply render_literals.
Qed.

(** X10.  Only a missing field is recovered from.  The first MATCH_END
    template formats the duration with [.0f]; when it is drawn for a
    payload that has a winner and whose duration is not a number,
    [generate_template] raises, ValueError for a string and TypeError
    for None, instead of returning text. *)
Theorem format_errors_are_not_caught draw tk ts payload w v :
  draw mod 3 = 0 ->
  dict_get "winner" payload = Some w ->
  dict_get "duration" payload = Some v ->
  is_number v = false ->
  generate_template float_str float_fixed0 draw (mkEvent MATCH_END ts tk payload)
  = Raise (match v with VNone => TypeError | _ => ValueError end).
Proof.
  intros Hdraw Hw Hv Hn. unfold generate_template, format, random_choice.
  simpl TEMPLATES. cbn [event_type data length]. rewrite Hdraw.
  cbn [nth]. 
  change (parse_template Outside "GG! {winner} wins in {duration:.0f} seconds!")
    with (map Lit (list_ascii_of_string "GG! ")
          ++ Field "winner" "" :: map Lit (list_ascii_of_string " wins in ")
          ++ Field "duration" ".0f"
          :: map Lit (list_ascii_of_string " seconds!")).
  simpl. rewrite Hw. simpl. rewrite Hv.
  destruct v; try discriminate; reflexivity.
Qed.

End Rendering.

Lemma format_keeps_text_without_braces_witness :
  format (fun _ => "0.0") (fun _ => "0")
    "Welcome to the Rift! The match has begun!" [("winner", VNone)]
  = Ok "Welcome to the Rift! The match has begun!".
Proof.
  apply (format_keeps_text_without_braces (fun _ => "0.0") (fun _ => "0")).
  reflexivity.
Defined.

Lemma format_errors_are_not_caught_witness :
  generate_template (fun _ => "0.0") (fun _ => "0") 3
    (mkEvent MATCH_END 600 9
       [("winner", VStr "blue"); ("duration", VStr "ten minutes")])
  = Raise ValueError.
Proof.
  apply (format_errors_are_not_caught (fun _ => "0.0") (fun _ => "0") 3 9 600
           _ (VStr "blue") (VStr "ten minutes")); reflexivity.
Defined.

End CommentaryMore.

Module EngineMore.
Import Detector Commentary Broadcaster Engine Observe PyFacts DetectorFacts
       DetectorMore CommentaryMore Scenario.

Section Pipeline.
Variable float_str : Q -> string.
Variable float_fixed0 : Q -> string.

(** X11.  The fast path never degrades on the detector's own events: for
    every event that [detect] returns, the event type has a template
    set, the payload holds every field that the drawn template refers
    to, and [generate_template] returns the fully substituted, non-empty
    text; it neither raises nor falls back to the raw template. *)
Theorem detector_events_always_render self snap self' evs e draw :
  detect self snap = Ok (self', evs) ->
  In e evs ->
  exists templates text,
    TEMPLATES (event_type e) = Some templates /\
    format float_str float_fixed0 (random_choice draw templates) (data e)
    = Ok text /\
    text <> "" /\
    generate_template float_str float_fixed0 draw e = Ok (Some text).
Proof.
  intros H Hin. apply detect_emitted in H.
  rewrite List.Forall_forall in H. destruct (H e Hin) as (_ & _ & _ & Hs).
  now apply speakable_renders.
Qed.

Variable closed : conn -> bool.
Variable draws : nat -> nat.
Variable now : nat -> Q.

(** The announcement loop stops at its first event, in the
    serialisation of the broadcast. *)
Lemma announce_raises engine e rest i members log tasks :
  speakable e = true ->
  announce float_str float_fixed0 closed draws now engine (e :: rest) i
    members log tasks = Raise TypeError.
Proof.
  intros Hs.
  destruct (speakable_renders float_str float_fixed0 e (draws i) Hs)
    as (templates & text & _ & _ & Hne & Hg).
  simpl. rewrite Hg. simpl.
  destruct (String.eqb_spec text ""); [contradiction|reflexivity].
Qed.

(** X12.  [process_game_update] never sends anything.  When the
    detector returns no event it only stores the new detector state;
    when the detector returns at least one event, the broadcast of the
    first one raises TypeError while the message is serialised, because
    the commentary type passed is the event's [EventType] member: no
    spectator is sent anything and no enhancement or speech task is
    created.  An exception of the detector is passed on. *)
Theorem process_game_update_never_sends engine data :
  process_game_update float_str float_fixed0 closed draws now engine data
  = match detect (event_detector engine) data with
    | Ok (detector', []) =>
        Ok (mkEngine detector' (spectators engine) (enable_llm engine)
              (has_tts engine), [], [])
    | Ok (_, _ :: _) => Raise TypeError
    | Raise e => Raise e
    end.
Proof.
  unfold process_game_update.
  destruct (detect (event_detector engine) data) as [[d' evs]|x] eqn:Hd;
    [|reflexivity].
  simpl. destruct evs as [|e rest]; [reflexivity|].
  apply detect_emitted in Hd. apply Forall_cons in Hd as [(_ & _ & _ & Hs) _].
  now rewrite (announce_raises engine e rest 0 _ _ _ Hs).
Qed.

End Pipeline.

Lemma detector_events_always_render_witness :
  exists self' e rest,
    detect (state_after [duel_opening]) duel_first_death
    = Ok (self', e :: rest) /\
    generate_template (fun _ => "0.0") (fun _ => "0") 0 e
    = Ok (Some "Brand draws first blood on Ahri!").
Proof.
  eexists _, _, _. split; [vm_compute; reflexivity|].
  destruct (detector_events_always_render (fun _ => "0.0") (fun _ => "0")
              (state_after [duel_opening]) duel_first_death _ _ _ 0
              ltac:(vm_compute; reflexivity) (or_introl eq_refl))
    as (templates & text & _ & _ & _ & Hg).
  rewrite Hg. vm_compute in Hg. symmetry. exact Hg.
Defined.

End EngineMore.

Module BroadcasterMore.
Import Broadcaster BroadcasterSpec Scenario.

(** X13.  A broadcast keeps exactly the members whose connection is
    open, however many are closed: each member gets one attempt, each
    open one is delivered the message, the number of deliveries is the
    size of the set the call leaves, and broadcasting again to that set
    removes nobody. *)
Theorem broadcast_keeps_exactly_the_open closed spectators text kind now
    spectators' log :
  broadcast_commentary closed spectators text kind now = (spectators', log) ->
  (forall c, c ∈ spectators' <-> c ∈ spectators /\ closed c = false) /\
  map fst log = elements spectators /\
  (forall c, c ∈ spectators ->
     In (c, send closed c (mkMessage "commentary" text kind now)) log) /\
  length (List.filter delivered log) = size spectators' /\
  (forall text' kind' now',
     fst (broadcast_commentary closed spectators' text' kind' now')
     = spectators').
Proof.
  intros H. rewrite broadcast_closed_form in H. cbv zeta in H.
  injection H as <- <-.
  assert (Hmem : forall c,
            c ∈ spectators ∖ list_to_set (List.filter closed (elements spectators))
            <-> c ∈ spectators /\ closed c = false).
  { intros c.
    rewrite elem_of_difference, elem_of_list_to_set, list_elem_of_In,
      filter_In, <- list_elem_of_In, elem_of_elements.
    split.
    - intros [Hc Hn]. split; [exact Hc|].
      destruct (closed c) eqn:E; [|reflexivity]. exfalso. auto.
    - intros [Hc Ho]. split; [exact Hc|]. intros [_ Hcl]. congruence. }
  split; [exact Hmem|]. split; [apply attempts_members|]. split; [|split].
  - intros c Hc. apply in_map_iff. exists c. split; [reflexivity|].
    apply list_elem_of_In. now apply elem_of_elements.
  - rewrite delivered_open, length_map.
    assert (Hset : spectators ∖ list_to_set (List.filter closed (elements spectators))
                   = list_to_set (List.filter (fun ws => negb (closed ws))
                                              (elements spectators))).
    { apply set_eq. intros c.
      rewrite Hmem, elem_of_list_to_set, list_elem_of_In, filter_In,
        <- list_elem_of_In, elem_of_elements, negb_true_iff. reflexivity. }
    rewrite Hset, size_list_to_set; [reflexivity|].
    apply NoDup_ListNoDup, List.NoDup_filter, NoDup_ListNoDup, NoDup_elements.
  - intros text' kind' now'. rewrite broadcast_closed_form. cbv zeta. simpl.
    destruct (all_open closed
                (elements (spectators ∖ list_to_set
                             (List.filter closed (elements spectators)))))
      as [Hnone _].
    + intros c Hc. apply elem_of_elements, Hmem in Hc. tauto.
    + rewrite Hnone. simpl. apply difference_empty_L.
Qed.

Lemma broadcast_keeps_exactly_the_open_witness :
  exists log,
    broadcast_commentary gone audience "ACE!" "ace" 1 = ({[ 1; 3 ]}, log) /\
    length (List.filter delivered log) = 2.
Proof.
  eexists.
  assert (H : broadcast_commentary gone audience "ACE!" "ace" 1
              = ({[ 1; 3 ]}, _)) by (vm_compute; reflexivity).
  split; [exact H|].
  destruct (broadcast_keeps_exactly_the_open _ _ _ _ _ _ _ H)
    as (_ & _ & _ & Hlen & _).
  exact Hlen.
Defined.

End BroadcasterMore.

(* ===================================================================== *)
(** ** Properties of the agent SDK helpers and the example bot            *)
(* ===================================================================== *)

Module SdkMore.
Import Sdk PyFacts Arena.

Section MinFacts.
Context {A : Type}.
Variable key : A -> Q.

(** [min_from] returns an item of the list scanned, strictly below all
    items before it and not above any item after it. *)
Lemma min_from_spec items : forall seen_pre best seen_post,
  Forall (fun a => (key best < key a)%Q) seen_pre ->
  Forall (fun a => (key best <= key a)%Q) seen_post ->
  exists pre post,
    seen_pre ++ best :: seen_post ++ items
    = pre ++ min_from key best items :: post /\
    Forall (fun a => (key (min_from key best items) < key a)%Q) pre /\
    Forall (fun a => (key (min_from key best items) <= key a)%Q) post.
Proof.
  induction items as [|a rest IH]; intros seen_pre best seen_post Hpre Hpost.
  - simpl. exists seen_pre, seen_post. now rewrite app_nil_r.
  - simpl. destruct (Qltb (key a) (key best)) eqn:E.
    + apply Qltb_lt in E.
      destruct (IH (seen_pre ++ best :: seen_post) a []) as (pre & post & Heq & H1 & H2).
      * apply Forall_app. split; [|constructor].
        -- eapply List.Forall_impl; [|exact Hpre]. intros x Hx. simpl in Hx. lra.
        -- exact E.
        -- eapply List.Forall_impl; [|exact Hpost]. intros x Hx. simpl in Hx. lra.
      * constructor.
      * exists pre, post. split; [|auto].
        rewrite <- Heq. simpl. now rewrite <- app_assoc.
    + apply Qltb_ge in E.
      destruct (IH seen_pre best (seen_post ++ [a])) as (pre & post & Heq & H1 & H2).
      * exact Hpre.
      * apply Forall_app. split; [exact Hpost|]. constructor; [exact E|constructor].
      * exists pre, post. split; [|auto].
        rewrite <- Heq. now rewrite <- app_assoc.
Qed.

Lemma min_by_spec items :
  match min_by key items with
  | None => items = []
  | Some r =>
      exists pre post,
        items = pre ++ r :: post /\
        Forall (fun a => (key r < key a)%Q) pre /\
        Forall (fun a => (key r <= key a)%Q) post
  end.
Proof.
  destruct items as [|a rest]; simpl; [reflexivity|].
  destruct (min_from_spec rest [] a []) as (pre & post & Heq & H1 & H2);
    [constructor|constructor|]. simpl in Heq. eauto.
Qed.
End MinFacts.

Section Bot.
Variable sqrt : Q -> Q.

(** X14.  [get_nearest_enemy] returns None exactly when no enemy of the
    observation is alive.  Otherwise it returns an alive enemy, and in
    the list of alive enemies every one before it is strictly farther
    from the agent and every one after it is at least as far: the
    nearest alive enemy, the first listed among equally near ones. *)
Theorem nearest_enemy_is_nearest_alive obs :
  match get_nearest_enemy sqrt obs with
  | None => Forall (fun e => en_is_alive e = false) (enemies obs)
  | Some r =>
      en_is_alive r = true /\ In r (enemies obs) /\
      exists pre post,
        List.filter en_is_alive (enemies obs) = pre ++ r :: post /\
        Forall (fun e =>
                  (distance_to sqrt (me_position (self_state obs)) (en_position r)
                   < distance_to sqrt (me_position (self_state obs)) (en_position e))%Q)
               pre /\
        Forall (fun e =>
                  (distance_to sqrt (me_position (self_state obs)) (en_position r)
                   <= distance_to sqrt (me_position (self_state obs)) (en_position e))%Q)
               post
  end.
Proof.
  unfold get_nearest_enemy.
  destruct (enemies obs) as [|e0 es] eqn:He; [constructor|].
  rewrite <- He.
  pose proof (min_by_spec
                (fun e => distance_to sqrt (me_position (self_state obs))
                            (en_position e))
                (List.filter en_is_alive (enemies obs))) as Hm.
  destruct (min_by _ (List.filter en_is_alive (enemies obs))) as [r|].
  - destruct Hm as (pre & post & Heq & H1 & H2).
    assert (Hin : In r (List.filter en_is_alive (enemies obs))).
    { rewrite Heq. apply in_or_app. right. now left. }
    apply filter_In in Hin as [Hin Hal].
    split; [exact Hal|]. split; [exact Hin|]. eauto.
  - apply List.Forall_forall. intros e Hin.
    destruct (en_is_alive e) eqn:Hal; [|reflexivity].
    assert (Hf : In e (List.filter en_is_alive (enemies obs)))
      by (apply filter_In; auto).
    rewrite Hm in Hf. contradiction.
Qed.

(** X15.  [get_low_health_enemy_minion] returns None exactly when every
    enemy minion is above the threshold.  Otherwise it returns a minion
    at or below the threshold, the nearest of those and the first
    listed among equally near ones.  A minion whose maximum health is
    not positive counts as at 0 percent, so it qualifies for every
    threshold that is not negative. *)
Theorem low_health_minion_is_nearest_qualifying obs (threshold : Q) :
  let pct m := health_percent (mi_health m) (mi_max_health m) in
  let dist m := distance_to sqrt (me_position (self_state obs)) (mi_position m) in
  match get_low_health_enemy_minion sqrt obs threshold with
  | None => Forall (fun m => (threshold < pct m)%Q) (enemy_minions obs)
  | Some r =>
      (pct r <= threshold)%Q /\ In r (enemy_minions obs) /\
      exists pre post,
        List.filter (fun m => Qleb (pct m) threshold) (enemy_minions obs)
        = pre ++ r :: post /\
        Forall (fun m => (dist r < dist m)%Q) pre /\
        Forall (fun m => (dist r <= dist m)%Q) post
  end /\
  (forall m, In m (enemy_minions obs) -> (mi_max_health m <= 0)%Q ->
             (0 <= threshold)%Q ->
             get_low_health_enemy_minion sqrt obs threshold <> None).
Proof.
  intros pct dist. unfold get_low_health_enemy_minion. cbv zeta.
  change (fun m => Qleb (health_percent (mi_health m) (mi_max_health m)) threshold)
    with (fun m => Qleb (pct m) threshold).
  change (fun m => distance_to sqrt (me_position (self_state obs)) (mi_position m))
    with dist.
  set (low := List.filter (fun m => Qleb (pct m) threshold) (enemy_minions obs)).
  assert (Hmem : forall m, In m low <->
                           In m (enemy_minions obs) /\ Qleb (pct m) threshold = true)
    by (intros m; apply filter_In).
  clearbody low.
  split.
  - destruct low as [|m0 ms] eqn:Hl.
    + apply List.Forall_forall. intros m Hin.
      destruct (Qleb (pct m) threshold) eqn:E; [|now apply Qleb_gt].
      destruct (proj2 (Hmem m) (conj Hin E)).
    + rewrite <- Hl in *.
      pose proof (min_by_spec dist low) as Hm.
      destruct (min_by dist low) as [r|].
      * destruct Hm as (pre & post & Heq & H1 & H2).
        assert (Hin : In r low) by (rewrite Heq; apply in_or_app; right; now left).
        apply Hmem in Hin as [Hin Hq]. apply Qleb_le in Hq. eauto 8.
      * rewrite Hm in Hl. discriminate.
  - intros m Hin Hmax Hth.
    assert (Hf : In m low).
    { apply Hmem. split; [exact Hin|]. apply Qleb_le.
      unfold pct, health_percent.
      assert (E : Qltb 0 (mi_max_health m) = false) by now apply Qltb_ge.
      now rewrite E. }
    pose proof (min_by_spec dist low) as Hm.
    destruct low as [|m0 ms]; [contradiction|].
    destruct (min_by dist (m0 :: ms)); [discriminate|discriminate Hm].
Qed.

Lemma fight_targets me nearest_enemy tid :
  In (AttackAction tid) (fight sqrt me nearest_enemy) ->
  tid = en_id nearest_enemy.
Proof.
  unfold fight.
  repeat match goal with
         | |- context [if ?b then _ else _] => destruct b
         end;
    rewrite ?in_app_iff; simpl; intuition (try discriminate; congruence).
Qed.


Lemma nearest_minion_member obs m :
  get_nearest_enemy_minion sqrt obs = Some m -> In m (enemy_minions obs).
Proof.
  unfold get_nearest_enemy_minion.
  destruct (enemy_minions obs) as [|m0 ms] eqn:He; [discriminate|].
  rewrite <- He. intros H.
  pose proof (min_by_spec
                (fun m => distance_to sqrt (me_position (self_state obs))
                            (mi_position m)) (enemy_minions obs)) as Hm.
  rewrite H in Hm. destruct Hm as (pre & post & -> & _).
  apply in_or_app. right. now left.
Qed.

Lemma farm_or_push_targets obs push_target tid :
  In (AttackAction tid) (farm_or_push sqrt obs push_target) ->
  exists m, In m (enemy_minions obs) /\ mi_id m = tid.
Proof.
  unfold farm_or_push.
  destruct (get_nearest_enemy_minion sqrt obs) as [m|] eqn:Hm.
  - apply nearest_minion_member in Hm.
    destruct (Qleb _ _); [|destruct (Qltb _ _)]; simpl;
      intros [H|[]]; try discriminate.
    injection H as <-. eauto.
  - simpl. intros [H|[]]. discriminate.
Qed.


(** X17.  The example bot attacks enemies only: the target of every
    attack it returns is the id of an alive enemy champion or of an
    enemy minion of the observation it was given. *)
Theorem bot_attacks_enemies_only self obs tid :
  In (AttackAction tid) (decide sqrt self obs) ->
  (exists e, In e (enemies obs) /\ en_id e = tid /\ en_is_alive e = true) \/
  (exists m, In m (enemy_minions obs) /\ mi_id m = tid).
Proof.
  unfold decide. destruct (negb (me_is_alive (self_state obs))); [intros []|].
  destruct (Qltb _ (1 # 4)); [intros [H|[]]; discriminate|].
  pose proof (low_health_minion_is_nearest_qualifying obs (1 # 4)) as [Hlow _].
  cbv zeta in Hlow.
  destruct (get_low_health_enemy_minion sqrt obs (1 # 4)) as [m|].
  - destruct Hlow as (_ & Hin & _).
    destruct (Qleb _ _); intros [H|[]]; try discriminate.
    injection H as <-. right. eauto.
  - clear Hlow.
    assert (Hfarm : forall push,
              In (AttackAction tid) (farm_or_push sqrt obs push) ->
              (exists e, In e (enemies obs) /\ en_id e = tid /\
                         en_is_alive e = true) \/
              (exists m, In m (enemy_minions obs) /\ mi_id m = tid)).
    { intros push H. right. now apply farm_or_push_targets in H. }
    pose proof (nearest_enemy_is_nearest_alive obs) as Hne.
    destruct (get_nearest_enemy sqrt obs) as [e|]; [|apply Hfarm].
    destruct Hne as (Hal & Hin & _). rewrite Hal.
    destruct (fight sqrt (self_state obs) e) as [|a l] eqn:Hf; [apply Hfarm|].
    intros H. rewrite <- Hf in H. apply fight_targets in H. left. eauto.
Qed.

End Bot.

Lemma low_health_minion_is_nearest_qualifying_witness :
  In broken_minion (enemy_minions wave) /\
  (mi_max_health broken_minion <= 0)%Q /\
  (0 <= 1 # 4)%Q /\
  get_low_health_enemy_minion exact_sqrt wave (1 # 4) <> None.
Proof.
  assert (H1 : In broken_minion (enemy_minions wave))
    by (right; left; reflexivity).
  assert (H2 : (mi_max_health broken_minion <= 0)%Q)
    by (vm_compute; discriminate).
  assert (H3 : (0 <= 1 # 4)%Q) by (vm_compute; discriminate).
  split; [exact H1|]. split; [exact H2|]. split; [exact H3|].
  exact (proj2 (low_health_minion_is_nearest_qualifying exact_sqrt wave (1 # 4))
               broken_minion H1 H2 H3).
Defined.


Lemma bot_attacks_enemies_only_witness :
  In (AttackAction "foe") (decide exact_sqrt blue_bot skirmish) /\
  ((exists e, In e (enemies skirmish) /\ en_id e = "foe" /\
              en_is_alive e = true) \/
   (exists m, In m (enemy_minions skirmish) /\ mi_id m = "foe")).
Proof.
  assert (H : In (AttackAction "foe") (decide exact_sqrt blue_bot skirmish))
    by (vm_compute; right; left; reflexivity).
  split; [exact H|].
  exact (bot_attacks_enemies_only exact_sqrt blue_bot skirmish "foe" H).
Defined.

(** X18.  A position survives serialisation: the target dictionary that
    [MoveAction.to_dict] writes reads back, with [Position.from_dict],
    as the position it was written from; and a dictionary that lacks a
    coordinate reads back with 0 in its place. *)
Theorem move_target_round_trip (p : Position) (data : list (string * Q)) :
  (exists d, dict_get "target" (to_dict (MoveAction p)) = Some (JNums d) /\
             Position_from_dict d = p) /\
  (dict_get "x" data = None -> pos_x (Position_from_dict data) = 0%Q) /\
  (dict_get "y" data = None -> pos_y (Position_from_dict data) = 0%Q).
Proof.
  split; [|split].
  - exists (position_dict p). split; [reflexivity|]. now destruct p.
  - unfold Position_from_dict. intros ->. reflexivity.
  - unfold Position_from_dict. intros ->. reflexivity.
Qed.

Lemma move_target_round_trip_witness :
  dict_get "x" [("y", 5%Q)] = None /\
  pos_x (Position_from_dict [("y", 5%Q)]) = 0%Q.
Proof.
  split; [reflexivity|].
  exact (proj1 (proj2 (move_target_round_trip (mkPosition 0 0) [("y", 5%Q)]))
               eq_refl).
Defined.


End SdkMore.
